(** * ICSEF / icssploit: the interpreter shell and the printer worker

    A shallow embedding of [src/interpreter/base_interpreter.py]
    (class [BaseInterpreter]) and of [icssploit/printer.py]
    (class [PrinterThread]), with the properties of the shell's line
    parser, handler resolution, main loop, completion protocol and of the
    printer worker.

    Conventions of the embedding:
    - a Python [str] is a [string]; its characters are the code points
      below 256;
    - a Python [int] is a [Z];
    - an object's attribute namespace is a [gmap string pyvalue];
    - a raised exception is the [Raise] case of [result];
    - the interpreter loop and the printer worker thread their state
      explicitly. *)

From Stdlib Require Import ZArith String Ascii List Bool Lia.
From stdpp Require Import gmap strings list sorting.

Local Open Scope string_scope.
Local Open Scope Z_scope.

(** ** Python string primitives *)

Module PyStr.

(** [str.isspace] on one character, for the code points below 256:
    TAB..CR, FS..US, SPACE, NEL and NBSP. *)
Definition isspace (c : ascii) : bool :=
  let n := N_of_ascii c in
  ((9 <=? n) && (n <=? 13) || (28 <=? n) && (n <=? 32)
   || (n =? 133) || (n =? 160))%N.

Definition space : ascii := " "%char.
Definition tab : ascii := ascii_of_N 9.
Definition underscore : ascii := "_"%char.

(** [s.lstrip()] *)
Fixpoint lstrip (s : string) : string :=
  match s with
  | EmptyString => EmptyString
  | String c s' => if isspace c then lstrip s' else s
  end.

Definition is_empty (s : string) : bool :=
  match s with EmptyString => true | String _ _ => false end.

(** [s.rstrip()] *)
Fixpoint rstrip (s : string) : string :=
  match s with
  | EmptyString => EmptyString
  | String c s' =>
      let r := rstrip s' in
      if is_empty r && isspace c then EmptyString else String c r
  end.

(** [s.strip()] *)
Definition strip (s : string) : string := lstrip (rstrip s).

(** [s.partition(sep)] for a separator [sep] of one character [c]:
    [(head, sep, tail)] at the first occurrence, [(s, "", "")] when
    there is none. *)
Fixpoint partition (c : ascii) (s : string) : string * string * string :=
  match s with
  | EmptyString => (EmptyString, EmptyString, EmptyString)
  | String a s' =>
      if Ascii.eqb a c then (EmptyString, String c EmptyString, s')
      else let '(h, sep, t) := partition c s' in (String a h, sep, t)
  end.

(** [s.startswith(p)] *)
Definition startswith (s p : string) : bool := String.prefix p s.

(** [s.rsplit(sep)] (no [maxsplit]) for a separator of one character:
    the pieces between every occurrence, left to right. *)
Fixpoint rsplit (c : ascii) (s : string) : list string :=
  match s with
  | EmptyString => [EmptyString]
  | String a s' =>
      if Ascii.eqb a c then EmptyString :: rsplit c s'
      else match rsplit c s' with
           | h :: t => String a h :: t
           | [] => [String a EmptyString]
           end
  end.

(** [l.pop()] returns the last element; the lists it is applied to
    here come from [rsplit] and are never empty. *)
Definition pop (l : list string) : string := List.last l EmptyString.

(** [len(s)] *)
Definition len (s : string) : Z := Z.of_nat (String.length s).

(** Longest prefix, and the rest, along a character predicate. *)
Fixpoint take_while (p : ascii -> bool) (s : string) : string :=
  match s with
  | EmptyString => EmptyString
  | String a s' => if p a then String a (take_while p s') else EmptyString
  end.

Fixpoint drop_while (p : ascii -> bool) (s : string) : string :=
  match s with
  | EmptyString => EmptyString
  | String a s' => if p a then drop_while p s' else s
  end.

(** Every character of [s] satisfies [p]. *)
Fixpoint forall_chars (p : ascii -> bool) (s : string) : bool :=
  match s with
  | EmptyString => true
  | String a s' => p a && forall_chars p s'
  end.

(** [needle in s] *)
Fixpoint contains (s needle : string) : bool :=
  String.prefix needle s
  || match s with
     | EmptyString => false
     | String _ s' => contains s' needle
     end.

End PyStr.

(** ** [BaseInterpreter.parse_line] *)

(** [command, _, arg = line.strip().partition(" ")]
    [return command, arg.strip()] *)
Definition parse_line (line : string) : string * string :=
  let '(command, _, arg) := PyStr.partition PyStr.space (PyStr.strip line) in
  (command, PyStr.strip arg).

(** The reading of the specification: the stripped line is cut at its
    first run of separator characters, the argument is the remainder,
    stripped.  [sep] says which characters separate. *)
Definition split_first_run (sep : ascii -> bool) (line : string)
  : string * string :=
  let s := PyStr.strip line in
  (PyStr.take_while (fun c => negb (sep c)) s,
   PyStr.strip (PyStr.drop_while (fun c => negb (sep c)) s)).

(** As the specification words it: the separators are the whitespace
    characters. *)
Definition parse_line_spec (line : string) : string * string :=
  split_first_run PyStr.isspace line.

Definition is_space_char (c : ascii) : bool := Ascii.eqb c PyStr.space.

(** The only whitespace of a line is the space character. *)
Definition only_spaces (line : string) : bool :=
  PyStr.forall_chars (fun c => implb (PyStr.isspace c) (is_space_char c)) line.

Definition tabbed_line : string := "foo" +:+ String PyStr.tab "bar".

(** ** Exceptions and results *)

Inductive exn : Type :=
| icssploitException (msg : string)
| AttributeError
| IndexError
| TypeError
| ValueError
| EOFError
| KeyboardInterrupt
| OtherError (name : string).

Inductive result (A : Type) : Type :=
| Ok (a : A)
| Raise (e : exn).
Arguments Ok {A} a.
Arguments Raise {A} e.

Definition is_AttributeError (e : exn) : bool :=
  match e with AttributeError => true | _ => false end.

Definition is_IndexError (e : exn) : bool :=
  match e with IndexError => true | _ => false end.

(** [try: body  except E: handler]: [catches] recognises [E]. *)
Definition try_except {A} (body : result A) (catches : exn -> bool)
    (handler : exn -> result A) : result A :=
  match body with
  | Ok a => Ok a
  | Raise e => if catches e then handler e else Raise e
  end.

(** ** Objects *)

(** What a call of a command handler does, as far as the shell can
    tell: the number of requests put on [printer_queue] before it
    comes back (by the handler or by threads it started), and the
    exception it raises, if any. *)
Record hresult : Type := { h_puts : nat; h_raise : option exn }.

Inductive pyvalue : Type :=
| PyMethod (f : string -> hresult)
    (* a callable of one argument: [command_<name>(args)] *)
| PyCompleter (f : string -> string -> Z -> Z -> list string)
    (* a callable of four arguments: [complete_<name>(text, line, begin, end)] *)
| PyData (repr : string).
    (* anything that cannot be called *)

(** An attribute namespace.  Python's [None] has none of the names
    looked up here: it is the empty namespace. *)
Abbreviation pyobject := (gmap string pyvalue).

(** [getattr(obj, name)] *)
Definition getattr (obj : pyobject) (name : string) : result pyvalue :=
  match obj !! name with
  | Some v => Ok v
  | None => Raise AttributeError
  end.

(** [dir(obj)]: the attribute names, sorted. *)
Definition str_le (a b : string) : Prop := String.leb a b = true.

#[local] Instance str_le_dec (a b : string) : Decision (str_le a b).
Proof. unfold str_le. apply _. Defined.

Definition dir (obj : pyobject) : list string :=
  merge_sort str_le (map fst (map_to_list obj)).

(** ** The interpreter object *)

(** [attrs] holds the names a shell class defines ([command_*],
    [complete_*] and whatever else); [current_module] and
    [completion_matches] are instance attributes that may be absent
    ([None] here is "no such attribute", not Python's [None]);
    [suggested_override] is the list returned by an overriding
    [suggested_commands], when a subclass has one. *)
Record interpreter : Type := {
  attrs : pyobject;
  current_module : option pyobject;
  completion_matches : option (list string);
  suggested_override : option (list string);
  banner : string
}.

Definition set_completion_matches (self : interpreter) (l : list string)
  : interpreter :=
  {| attrs := attrs self;
     current_module := current_module self;
     completion_matches := Some l;
     suggested_override := suggested_override self;
     banner := banner self |}.

(** [self.current_module] *)
Definition get_current_module (self : interpreter) : result pyobject :=
  match current_module self with
  | Some m => Ok m
  | None => Raise AttributeError
  end.

Definition bind {A B} (r : result A) (k : A -> result B) : result B :=
  match r with
  | Ok a => k a
  | Raise e => Raise e
  end.

Notation "'let*' x ':=' r 'in' k" := (bind r (fun x => k))
  (at level 10, x name, r at level 100, k at level 200).

(** [prompt] property *)
Definition prompt (self : interpreter) : string := ">>>".

Definition unknown_command (command : string) : exn :=
  icssploitException ("Unknown command: '" +:+ command +:+ "'").

(** [BaseInterpreter.get_command_handler] *)
Definition get_command_handler (self : interpreter) (command : string)
  : result pyvalue :=
  try_except
    (getattr (attrs self) ("command_" +:+ command))
    is_AttributeError
    (fun _ =>
       try_except
         (let* m := get_current_module self in
          getattr m ("command_" +:+ command))
         is_AttributeError
         (fun _ =>
            Raise (icssploitException
                     ("Unknown command: '" +:+ command +:+ "'")))).

(** [BaseInterpreter.commands] *)
Definition commands (self : interpreter) : list string :=
  map (fun command => PyStr.pop (PyStr.rsplit PyStr.underscore command))
      (filter (fun command => PyStr.startswith command "command_" = true)
              (dir (attrs self))).

(** [BaseInterpreter.suggested_commands], or its override *)
Definition suggested_commands (self : interpreter) : list string :=
  match suggested_override self with
  | Some l => l
  | None => commands self
  end.

(** [BaseInterpreter.raw_command_completer] *)
Definition raw_command_completer (self : interpreter)
    (text line : string) (start_index end_index : Z) : list string :=
  filter (fun entry => PyStr.startswith entry text = true)
         (suggested_commands self).

(** [BaseInterpreter.default_completer]: whatever the arguments, the
    empty list. *)
Definition default_completer (text line : string)
    (start_index end_index : Z) : list string := [].

(** ** [BaseInterpreter.complete] *)

(** The part of the [readline] module that [complete] reads. *)
Record readline : Type := {
  line_buffer : string;   (* readline.get_line_buffer() *)
  begidx : Z;             (* readline.get_begidx() *)
  endidx : Z              (* readline.get_endidx() *)
}.

(** [l[i]], with Python's negative indices. *)
Definition py_index {A} (l : list A) (i : Z) : result A :=
  let n := Z.of_nat (length l) in
  let j := if i <? 0 then i + n else i in
  if (0 <=? j) && (j <? n) then
    match nth_error l (Z.to_nat j) with
    | Some a => Ok a
    | None => Raise IndexError
    end
  else Raise IndexError.

(** Calling a value with the four completion arguments. *)
Definition call_completer (v : pyvalue) (text line : string)
    (start_index end_index : Z) : result (list string) :=
  match v with
  | PyCompleter f => Ok (f text line start_index end_index)
  | PyMethod _ | PyData _ => Raise TypeError
  end.

(** [original_line = readline.get_line_buffer()]
    [line = original_line.lstrip()]
    [stripped = len(original_line) - len(line)]
    [start_index = readline.get_begidx() - stripped]
    [end_index = readline.get_endidx() - stripped] *)
Definition line_of (rl : readline) : string := PyStr.lstrip (line_buffer rl).

Definition stripped_of (rl : readline) : Z :=
  PyStr.len (line_buffer rl) - PyStr.len (line_of rl).

Definition start_index_of (rl : readline) : Z := begidx rl - stripped_of rl.

Definition end_index_of (rl : readline) : Z := endidx rl - stripped_of rl.

(** The [complete_function] chosen in the [state == 0] branch. *)
Definition complete_function (self : interpreter) (rl : readline)
  : result pyvalue :=
  if 0 <? start_index_of rl then
    let '(cmd, args) := parse_line (line_of rl) in
    if String.eqb cmd "" then Ok (PyCompleter default_completer)
    else
      try_except
        (getattr (attrs self) ("complete_" +:+ cmd))
        is_AttributeError
        (fun _ => Ok (PyCompleter default_completer))
  else Ok (PyCompleter (raw_command_completer self)).

(** The candidate list of the [state == 0] branch: the value assigned
    to [self.completion_matches],
    [complete_function(text, line, start_index, end_index)]. *)
Definition completion_candidates (self : interpreter) (rl : readline)
    (text : string) : result (list string) :=
  let* f := complete_function self rl in
  call_completer f text (line_of rl) (start_index_of rl) (end_index_of rl).

(** [complete(text, state)]: the returned value ([None] is Python's
    [None]) and the interpreter afterwards. *)
Definition complete (self : interpreter) (rl : readline) (text : string)
    (state : Z) : result (option string) * interpreter :=
  let after_compute :=
    if state =? 0 then
      let* m := completion_candidates self rl text in
      Ok (set_completion_matches self m)
    else Ok self in
  match after_compute with
  | Raise e => (Raise e, self)
  | Ok self' =>
      (try_except
         (let* l := match completion_matches self' with
                    | Some l => Ok l
                    | None => Raise AttributeError
                    end in
          let* c := py_index l state in
          Ok (Some c))
         is_IndexError
         (fun _ => Ok None),
       self')
  end.

(** A completion session as the line editor drives it: one call per
    index, each on the interpreter the previous call left. *)
Fixpoint complete_calls (self : interpreter) (rl : readline) (text : string)
    (states : list Z) : list (result (option string)) * interpreter :=
  match states with
  | [] => ([], self)
  | st :: rest =>
      let '(r, self') := complete self rl text st in
      let '(rs, self'') := complete_calls self' rl text rest in
      (r :: rs, self'')
  end.

(** ** [BaseInterpreter.start]: the main loop *)

(** What [input(self.prompt)] does at one prompt. *)
Inductive read : Type :=
| Line (s : string)     (* a line is typed *)
| Interrupt             (* Ctrl-C: KeyboardInterrupt *)
| EndOfInput.           (* Ctrl-D: EOFError *)

Definition input (r : read) : result string :=
  match r with
  | Line s => Ok s
  | Interrupt => Raise KeyboardInterrupt
  | EndOfInput => Raise EOFError
  end.

(** Calls into [src.utils], which is outside these two files: a call
    is recorded by name and argument. *)
Inductive utils_call : Type :=
| print_error (msg : string)
| print_info
| print_status (msg : string).

(** What the loop does that can be seen from outside, in order.
    [EvInput] carries the number of unfinished tasks of
    [printer_queue] at the moment the prompt is shown. *)
Inductive event : Type :=
| EvPrintBanner (s : string)
| EvJoin
| EvInput (prompt : string) (unfinished : nat)
| EvCall (command args : string)
| EvUtils (c : utils_call).

(** How a block of statements ends. *)
Inductive signal : Type :=
| Fallthrough
| Continue
| Break
| Raised (e : exn).

Inductive exit : Type :=
| Terminated
| Propagated (e : exn).

(** Calling a value with the one argument string. *)
Definition call_handler (v : pyvalue) (args : string) : hresult :=
  match v with
  | PyMethod f => f args
  | PyCompleter _ | PyData _ => {| h_puts := 0; h_raise := Some TypeError |}
  end.

(** [printer_queue.join()] comes back once every task put so far is
    marked done; the printer worker is taken to be alive (what a dead
    worker leaves behind is in [Printer.run]). *)
Definition join (unfinished : nat) : nat := 0%nat.

(** The [except] clauses of the loop, in order. *)
Definition except_clauses (s : signal) : list utils_call * signal :=
  match s with
  | Raised (icssploitException msg) => ([print_error msg], Fallthrough)
  | Raised EOFError => ([print_info; print_status "icssploit stopped"], Break)
  | Raised KeyboardInterrupt => ([print_info], Fallthrough)
  | _ => ([], s)
  end.

Section Loop.

(** Requests a [src.utils] call puts on [printer_queue]. *)
Variable utils_puts : utils_call -> nat.

(** The interpreter after the handler of [command] ran on [args]
    (a handler may, for instance, change the current module). *)
Variable after_call : interpreter -> string -> string -> interpreter.

(** The [try] block. *)
Definition try_body (self : interpreter) (r : read) (q : nat)
  : list event * nat * signal * interpreter :=
  match input r with
  | Raise e => ([EvInput (prompt self) q], q, Raised e, self)
  | Ok line =>
      let '(command, args) := parse_line line in
      if String.eqb command "" then
        ([EvInput (prompt self) q], q, Continue, self)
      else
        match get_command_handler self command with
        | Raise e => ([EvInput (prompt self) q], q, Raised e, self)
        | Ok command_handler =>
            let r := call_handler command_handler args in
            ([EvInput (prompt self) q; EvCall command args],
             (q + h_puts r)%nat,
             match h_raise r with
             | None => Fallthrough
             | Some e => Raised e
             end,
             after_call self command args)
        end
  end.

(** One turn of [while True]: [try], [except], [finally]. *)
Definition iteration (self : interpreter) (r : read) (q : nat)
  : list event * nat * signal * interpreter :=
  let '(evs, q1, s1, self1) := try_body self r q in
  let '(calls, s2) := except_clauses s1 in
  let q2 := (q1 + list_sum (map utils_puts calls))%nat in
  ((evs ++ map EvUtils calls ++ [EvJoin])%list, join q2, s2, self1).

(** The loop over what happens at the successive prompts.  When the
    script is used up, standard input is at its end and [input]
    raises [EOFError]. *)
Fixpoint loop (self : interpreter) (inputs : list read) (q : nat)
  : list event * exit :=
  match inputs with
  | [] =>
      let '(evs, _, s, _) := iteration self EndOfInput q in
      (evs, match s with Raised e => Propagated e | _ => Terminated end)
  | r :: rest =>
      let '(evs, q', s, self') := iteration self r q in
      match s with
      | Fallthrough | Continue =>
          let '(evs', x) := loop self' rest q' in ((evs ++ evs')%list, x)
      | Break => (evs, Terminated)
      | Raised e => (evs, Propagated e)
      end
  end.

(** [start]: banner, first drain, loop.  [q0] tasks are unfinished
    when it is called. *)
Definition start (self : interpreter) (inputs : list read) (q0 : nat)
  : list event * exit :=
  let '(evs, x) := loop self inputs (join q0) in
  (EvPrintBanner (banner self) :: EvJoin :: evs, x).

End Loop.

(** The events of a turn followed by those of the rest of the run. *)
Definition followed_by (evs : list event) (x : list event * exit)
  : list event * exit :=
  ((evs ++ fst x)%list, snd x).

Definition events_of {A B C} (x : list event * A * B * C) : list event :=
  fst (fst (fst x)).

Definition unfinished_of {A B C} (x : A * nat * B * C) : nat :=
  snd (fst (fst x)).

Definition signal_of {A B C} (x : A * B * signal * C) : signal :=
  snd (fst x).

(** Every prompt of a trace comes right after a drain. *)
Fixpoint drained_before_input (prev_join : bool) (t : list event) : bool :=
  match t with
  | [] => true
  | EvInput _ _ :: t' => prev_join && drained_before_input false t'
  | EvJoin :: t' => drained_before_input true t'
  | _ :: t' => drained_before_input false t'
  end.

Definition is_input (ev : event) : bool :=
  match ev with EvInput _ _ => true | _ => false end.

Definition input_unfinished (ev : event) : nat :=
  match ev with EvInput _ n => n | _ => 0%nat end.

Definition is_print_error (ev : event) : bool :=
  match ev with EvUtils (print_error _) => true | _ => false end.

Definition is_call (ev : event) : bool :=
  match ev with EvCall _ _ => true | _ => false end.

(** ** [PrinterThread.run] *)

Module Printer.

(** One item of [printer_queue]: [(content, sep, end, file_, thread)].
    [file_] and [thread] are handles. *)
Record request : Type := {
  content : list string;
  sep : string;
  end_ : string;
  file_ : nat;
  thread : nat
}.

(** An output stream: whether it is closed, and what was written. *)
Record stream : Type := { closed : bool; written : string }.

(** [sep.join(content)] *)
Fixpoint join_str (sep : string) (content : list string) : string :=
  match content with
  | [] => ""
  | [x] => x
  | x :: rest => x +:+ sep +:+ join_str sep rest
  end.

(** [print] of the unpacked [content], with [sep=sep], [end=end] and
    [file=file_]: a handle with no stream behind it has no [write];
    a closed stream refuses it. *)
Definition print (files : gmap nat stream) (r : request)
  : result (gmap nat stream) :=
  match files !! file_ r with
  | None => Raise AttributeError
  | Some st =>
      if closed st then Raise ValueError
      else Ok (<[file_ r :=
                  {| closed := false;
                     written := written st +:+ join_str (sep r) (content r)
                                +:+ end_ r |}]> files)
  end.

(** [queue.Queue]: the items waiting, and the count of tasks put and
    not yet marked done. *)
Record pqueue : Type := { items : list request; unfinished_tasks : nat }.

Definition put (r : request) (q : pqueue) : pqueue :=
  {| items := (items q ++ [r])%list;
     unfinished_tasks := S (unfinished_tasks q) |}.

(** [task_done()] *)
Definition task_done (n : nat) : result nat :=
  match n with
  | O => Raise ValueError
  | S n' => Ok n'
  end.

(** Where the worker thread is. *)
Inductive status : Type :=
| Waiting             (* blocked in [printer_queue.get()] *)
| Dead (e : exn).     (* [run] was left by an exception *)

Record state : Type := {
  queue : pqueue;
  files : gmap nat stream;
  worker : status
}.

(** [run], on the items waiting: get, print, task_done, again. *)
Fixpoint run_items (its : list request) (n : nat) (fs : gmap nat stream)
  : state :=
  match its with
  | [] => {| queue := {| items := []; unfinished_tasks := n |};
             files := fs; worker := Waiting |}
  | r :: rest =>
      match print fs r with
      | Raise e => {| queue := {| items := rest; unfinished_tasks := n |};
                      files := fs; worker := Dead e |}
      | Ok fs' =>
          match task_done n with
          | Raise e => {| queue := {| items := rest; unfinished_tasks := n |};
                          files := fs'; worker := Dead e |}
          | Ok n' => run_items rest n' fs'
          end
      end
  end.

(** The worker takes up whatever waits; a dead worker takes nothing. *)
Definition run (s : state) : state :=
  match worker s with
  | Waiting => run_items (items (queue s)) (unfinished_tasks (queue s))
                         (files s)
  | Dead _ => s
  end.

(** A producer enqueues a request. *)
Definition enqueue (r : request) (s : state) : state :=
  {| queue := put r (queue s); files := files s; worker := worker s |}.

(** What a stream holds ([None]: no such stream). *)
Definition output (s : state) (f : nat) : option string :=
  written <$> (files s !! f).

(** The requests a live worker gets through: up to the first one
    whose stream is missing or closed. *)
Fixpoint writable_prefix (fs : gmap nat stream) (its : list request)
  : list request :=
  match its with
  | [] => []
  | r :: rest =>
      match print fs r with
      | Ok fs' => r :: writable_prefix fs' rest
      | Raise _ => []
      end
  end.

(** The streams once those requests are written. *)
Fixpoint write_all (fs : gmap nat stream) (its : list request)
  : gmap nat stream :=
  match its with
  | [] => fs
  | r :: rest =>
      match print fs r with
      | Ok fs' => write_all fs' rest
      | Raise _ => fs
      end
  end.

(** The worker waiting on the items [its], [n] tasks unfinished. *)
Definition waiting_on (its : list request) (n : nat) (fs : gmap nat stream)
  : state :=
  {| queue := {| items := its; unfinished_tasks := n |};
     files := fs; worker := Waiting |}.

(** Stream 1 is closed, stream 2 is open; a request for each. *)
Definition to_closed : request :=
  {| content := ["lost"]; sep := " "; end_ := ""; file_ := 1; thread := 0 |}.
Definition to_open : request :=
  {| content := ["hello"; "world"]; sep := " "; end_ := "!"; file_ := 2;
     thread := 0 |}.
Definition two_streams : gmap nat stream :=
  <[1%nat := {| closed := true; written := "" |}]>
    (<[2%nat := {| closed := false; written := "" |}]> ∅).
Definition broken_state : state :=
  waiting_on [to_closed; to_open] 2 two_streams.
Definition healthy_state : state :=
  waiting_on [to_open; to_open] 2 two_streams.

End Printer.

(** ** Shells used as examples *)

Module Examples.

Definition returns (n : nat) : pyvalue :=
  PyMethod (fun _ => {| h_puts := n; h_raise := None |}).

Definition fails (msg : string) : pyvalue :=
  PyMethod (fun _ => {| h_puts := 0;
                        h_raise := Some (icssploitException msg) |}).

Definition shell (a : pyobject) (m : option pyobject) : interpreter :=
  {| attrs := a; current_module := m; completion_matches := None;
     suggested_override := None; banner := "" |}.

(** A built-in [command_ping] and a module with its own. *)
Definition builtin_ping : pyvalue := returns 1.
Definition module_ping : pyvalue := returns 2.
Definition ping_module : pyobject :=
  <["command_ping" := module_ping]> (<["command_run" := returns 3]> ∅).
Definition ping_shell : interpreter :=
  shell (<["command_ping" := builtin_ping]> ∅) (Some ping_module).

(** The base class alone: no command, no [current_module]. *)
Definition bare_shell : interpreter := shell ∅ None.

(** Built-ins scan, status and stop. *)
Definition scan_shell : interpreter :=
  shell (<["command_stop" := returns 0]>
           (<["command_scan" := returns 0]>
              (<["command_status" := returns 0]> ∅))) None.

(** A command whose name has an underscore. *)
Definition options_shell : interpreter :=
  shell (<["command_show_options" := returns 0]>
           (<["command_exit" := returns 0]> ∅)) None.

(** [complete_set] present, and absent. *)
Definition set_candidates (text line : string) (b e : Z) : list string :=
  filter (fun entry => PyStr.startswith entry text = true)
         ["target"; "port"; "timeout"].
Definition set_shell : interpreter :=
  shell (<["complete_set" := PyCompleter set_candidates]>
           (<["command_set" := returns 0]> ∅)) None.
Definition unset_shell : interpreter :=
  shell (<["command_set" := returns 0]> ∅) None.

Definition at_command (buffer : string) : readline :=
  {| line_buffer := buffer;
     begidx := PyStr.len buffer - PyStr.len (PyStr.lstrip buffer);
     endidx := PyStr.len buffer |}.
Definition at_argument (buffer : string) (b : Z) : readline :=
  {| line_buffer := buffer; begidx := b; endidx := PyStr.len buffer |}.

End Examples.

(** ** Module import of [readline] (top of base_interpreter.py) *)

Definition is_ImportError (e : exn) : bool :=
  match e with OtherError n => String.eqb n "ImportError" | _ => false end.

(** [import <name>]: [available] says which modules are installed. *)
Definition import_module (available : string -> bool) (name : string)
  : result (option string) :=
  if available name then Ok (Some name) else Raise (OtherError "ImportError").

(** The [try]/[except ImportError] cascade that binds the global
    [readline]: the module bound, or [None]. *)
Definition select_readline (platform : string) (available : string -> bool)
  : result (option string) :=
  try_except
    (if String.eqb platform "darwin" then
       import_module available "gnureadline"
     else if String.eqb platform "win32" then
       try_except
         (import_module available "readline")
         is_ImportError
         (fun _ =>
            try_except
              (import_module available "pyreadline3")
              is_ImportError
              (fun _ =>
                 try_except
                   (import_module available "pyreadline")
                   is_ImportError
                   (fun _ => Ok None)))
     else import_module available "readline")
    is_ImportError
    (fun _ => Ok None).

(** The modules tried on a platform, in order. *)
Definition readline_candidates (platform : string) : list string :=
  if String.eqb platform "darwin" then ["gnureadline"]
  else if String.eqb platform "win32" then
    ["readline"; "pyreadline3"; "pyreadline"]
  else ["readline"].

(** ** [BaseInterpreter.setup] *)





(** ** Measures on traces and queues *)

Definition is_stop_notice (ev : event) : bool :=
  match ev with
  | EvUtils (print_status msg) => String.eqb msg "icssploit stopped"
  | _ => false
  end.

(** What the loop catches: the three [except] clauses. *)
Definition is_caught (e : exn) : bool :=
  match e with
  | icssploitException _ | EOFError | KeyboardInterrupt => true
  | _ => false
  end.

(** A handler call of a trace is well formed: the command is not empty
    and has no space, the argument is stripped. *)
Definition call_well_formed (ev : event) : bool :=
  match ev with
  | EvCall command args =>
      negb (String.eqb command "")
      && PyStr.forall_chars (fun c => negb (is_space_char c)) command
      && String.eqb (PyStr.strip args) args
  | _ => true
  end.

(** Every item waiting in the queue was counted when put. *)
Definition well_counted (s : Printer.state) : Prop :=
  (length (Printer.items (Printer.queue s))
   <= Printer.unfinished_tasks (Printer.queue s))%nat.

(** What [print] writes for a request. *)
Definition rendered (r : Printer.request) : string :=
  Printer.join_str (Printer.sep r) (Printer.content r) +:+ Printer.end_ r.

(** What a list of requests writes to the stream [f], in order. *)
Fixpoint rendered_for (f : nat) (its : list Printer.request) : string :=
  match its with
  | [] => ""
  | r :: rest =>
      if Nat.eqb (Printer.file_ r) f then rendered r +:+ rendered_for f rest
      else rendered_for f rest
  end.

(** Every request of [rs] is for a stream that exists and is open. *)
Definition targets_open (fs : gmap nat Printer.stream)
    (rs : list Printer.request) : bool :=
  forallb (fun r => match fs !! Printer.file_ r with
                    | Some st => negb (Printer.closed st)
                    | None => false
                    end) rs.

(** The worker waits on an empty queue with nothing unfinished. *)
Definition idle (s : Printer.state) : Prop :=
  Printer.worker s = Printer.Waiting /\
  Printer.items (Printer.queue s) = [] /\
  Printer.unfinished_tasks (Printer.queue s) = 0%nat.

(** Producers enqueue, the worker takes up, again and again. *)
Fixpoint enqueue_and_run (rs : list Printer.request) (s : Printer.state)
  : Printer.state :=
  match rs with
  | [] => s
  | r :: rest => enqueue_and_run rest (Printer.run (Printer.enqueue r s))
  end.

(** * Properties *)

(** ** Strings *)

Section StringFacts.

Import PyStr.

Lemma is_empty_true (s : string) : is_empty s = true -> s = "".
Proof. destruct s; [reflexivity | discriminate]. Qed.

Lemma strip_skip (c : ascii) (s : string) :
  isspace c = true -> strip (String c s) = strip s.
Proof.
  intros Hc. unfold strip. cbn [rstrip].
  destruct (is_empty (rstrip s)) eqn:He; cbn [andb].
  - rewrite Hc. apply is_empty_true in He. rewrite He. reflexivity.
  - cbn [lstrip]. rewrite Hc. reflexivity.
Qed.

Lemma isspace_space : isspace space = true.
Proof. reflexivity. Qed.

Lemma is_space_char_isspace (c : ascii) :
  is_space_char c = true -> isspace c = true.
Proof.
  unfold is_space_char. intros H. apply Ascii.eqb_eq in H. subst c.
  exact isspace_space.
Qed.

(** [partition(" ")] cuts where the first space is; stripping the tail
    forgets whether the spaces that follow were dropped. *)
Lemma partition_space_split (s : string) :
  forall h sp t, partition space s = (h, sp, t) ->
    h = take_while (fun c => negb (is_space_char c)) s /\
    strip t = strip (drop_while (fun c => negb (is_space_char c)) s).
Proof.
  induction s as [|a s IH]; intros h sp t Hp; cbn [partition] in Hp.
  - injection Hp as <- <- <-. split; reflexivity.
  - cbn [take_while drop_while]. unfold is_space_char at 1 3.
    destruct (Ascii.eqb a space) eqn:Ha; cbn [negb].
    + injection Hp as <- <- <-. split; [reflexivity|].
      symmetry. apply strip_skip. apply is_space_char_isspace. exact Ha.
    + destruct (partition space s) as [[h' sp'] t'] eqn:Hs.
      injection Hp as <- <- <-.
      destruct (IH h' sp' t' eq_refl) as [-> Ht]. split; [reflexivity | exact Ht].
Qed.

Lemma forall_chars_lstrip (p : ascii -> bool) (s : string) :
  forall_chars p s = true -> forall_chars p (lstrip s) = true.
Proof.
  induction s as [|a s IH]; [trivial|].
  cbn [lstrip]. destruct (isspace a); [|trivial].
  cbn [forall_chars]. intros H. apply andb_prop in H. apply IH, H.
Qed.

Lemma forall_chars_rstrip (p : ascii -> bool) (s : string) :
  forall_chars p s = true -> forall_chars p (rstrip s) = true.
Proof.
  induction s as [|a s IH]; [trivial|].
  cbn [forall_chars rstrip]. intros H. apply andb_prop in H as [Ha Hs].
  destruct (is_empty (rstrip s) && isspace a); [reflexivity|].
  cbn [forall_chars]. rewrite Ha, (IH Hs). reflexivity.
Qed.

Lemma forall_chars_strip (p : ascii -> bool) (s : string) :
  forall_chars p s = true -> forall_chars p (strip s) = true.
Proof.
  intros H. unfold strip. apply forall_chars_lstrip, forall_chars_rstrip, H.
Qed.

Lemma take_drop_while_ext (p q : ascii -> bool) (s : string) :
  forall_chars (fun c => Bool.eqb (p c) (q c)) s = true ->
  take_while p s = take_while q s /\ drop_while p s = drop_while q s.
Proof.
  induction s as [|a s IH]; [split; reflexivity|].
  cbn [forall_chars take_while drop_while]. intros H.
  apply andb_prop in H as [Ha Hs]. apply Bool.eqb_prop in Ha. rewrite Ha.
  destruct (IH Hs) as [-> ->]. split; reflexivity.
Qed.

Lemma forall_chars_impl (p q : ascii -> bool) (s : string) :
  (forall c, p c = true -> q c = true) ->
  forall_chars p s = true -> forall_chars q s = true.
Proof.
  intros Hpq. induction s as [|a s IH]; [trivial|].
  cbn [forall_chars]. intros H. apply andb_prop in H as [Ha Hs].
  rewrite (Hpq _ Ha), (IH Hs). reflexivity.
Qed.

(** A blank line strips to the empty string. *)
Lemma rstrip_blank (s : string) :
  forall_chars isspace s = true -> rstrip s = "".
Proof.
  induction s as [|a s IH]; [trivial|].
  cbn [forall_chars rstrip]. intros H. apply andb_prop in H as [Ha Hs].
  rewrite (IH Hs), Ha. reflexivity.
Qed.

Lemma strip_blank (s : string) :
  forall_chars isspace s = true -> strip s = "".
Proof. intros H. unfold strip. rewrite (rstrip_blank _ H). reflexivity. Qed.

End StringFacts.

(** ** parse_line *)

Lemma parse_line_split_space (line : string) :
  parse_line line = split_first_run is_space_char line.
Proof.
  unfold parse_line, split_first_run.
  destruct (PyStr.partition PyStr.space (PyStr.strip line)) as [[h sp] t] eqn:Hp.
  destruct (partition_space_split _ _ _ _ Hp) as [-> ->]. reflexivity.
Qed.

(** C1, as the specification words it, fails: a TAB is whitespace, and
    [parse_line] does not split there. *)
Lemma parse_line_tab_not_split :
  parse_line tabbed_line = (tabbed_line, "") /\
  parse_line_spec tabbed_line = ("foo", "bar") /\
  ~ (forall line, parse_line line = parse_line_spec line).
Proof.
  assert (H1 : parse_line tabbed_line = (tabbed_line, "")) by reflexivity.
  assert (H2 : parse_line_spec tabbed_line = ("foo", "bar")) by reflexivity.
  split; [exact H1 | split; [exact H2 |]].
  intros H. specialize (H tabbed_line). rewrite H1, H2 in H. discriminate H.
Qed.

(** C1 (amended): for every line, [parse_line] cuts the stripped line at
    its first run of space characters (U+0020): the command is what
    precedes the first space, the argument is the remainder, stripped.
    A blank line gives two empty strings, the three examples of the
    specification hold, and on a line whose only whitespace is the space
    character the result is the split on the first run of whitespace. *)
Theorem parse_line_splits_at_first_space :
  (forall line, parse_line line = split_first_run is_space_char line) /\
  (forall line, PyStr.forall_chars PyStr.isspace line = true ->
                parse_line line = ("", "")) /\
  (forall line, only_spaces line = true ->
                parse_line line = parse_line_spec line) /\
  parse_line "foo bar baz" = ("foo", "bar baz") /\
  parse_line "   " = ("", "") /\
  parse_line "cmd" = ("cmd", "").
Proof.
  split; [exact parse_line_split_space|].
  split.
  { intros line H. unfold parse_line. rewrite (strip_blank _ H). reflexivity. }
  split.
  { intros line H. rewrite parse_line_split_space.
    unfold parse_line_spec, split_first_run.
    assert (He : PyStr.forall_chars
                   (fun c => Bool.eqb (negb (is_space_char c))
                                      (negb (PyStr.isspace c)))
                   (PyStr.strip line) = true).
    { apply forall_chars_strip.
      revert H. unfold only_spaces. apply forall_chars_impl.
      intros c Hc. destruct (PyStr.isspace c) eqn:Hs; cbn [implb] in Hc.
      - rewrite Hc. reflexivity.
      - destruct (is_space_char c) eqn:Hi; [|reflexivity].
        apply is_space_char_isspace in Hi. congruence. }
    destruct (take_drop_while_ext _ _ _ He) as [-> ->]. reflexivity. }
  repeat split; reflexivity.
Qed.

Lemma parse_line_splits_at_first_space_witness :
  parse_line "  use   scanners/s7  " = parse_line_spec "  use   scanners/s7  " /\
  parse_line "  use   scanners/s7  " = ("use", "scanners/s7").
Proof.
  split.
  - apply (proj1 (proj2 (proj2 parse_line_splits_at_first_space))).
    reflexivity.
  - reflexivity.
Defined.

(** ** Handler resolution *)

Section ContainsFacts.

Import PyStr.

Lemma prefix_app (p s : string) : String.prefix p (p +:+ s) = true.
Proof.
  induction p as [|a p IH].
  - destruct s; reflexivity.
  - change (String a p +:+ s) with (String a (p +:+ s)).
    cbn [String.prefix].
    destruct (ascii_dec a a); [exact IH | congruence].
Qed.

Lemma contains_prefix (s needle : string) :
  String.prefix needle s = true -> contains s needle = true.
Proof. intros H. destruct s; cbn [contains]; rewrite H; reflexivity. Qed.

Lemma contains_app_l (a s needle : string) :
  contains s needle = true -> contains (a +:+ s) needle = true.
Proof.
  intros H. induction a as [|c a IH]; [exact H|].
  change (String c a +:+ s) with (String c (a +:+ s)).
  cbn [contains]. rewrite IH. apply orb_true_r.
Qed.

Lemma contains_middle (a b c : string) : contains (a +:+ b +:+ c) b = true.
Proof. apply contains_app_l, contains_prefix, prefix_app. Qed.

End ContainsFacts.

Lemma get_command_handler_builtin (self : interpreter) (command : string)
    (h : pyvalue) :
  attrs self !! ("command_" +:+ command) = Some h ->
  get_command_handler self command = Ok h.
Proof.
  intros H. unfold get_command_handler, getattr. rewrite H. reflexivity.
Qed.

Lemma get_command_handler_module (self : interpreter) (command : string)
    (m : pyobject) (h : pyvalue) :
  attrs self !! ("command_" +:+ command) = None ->
  current_module self = Some m ->
  m !! ("command_" +:+ command) = Some h ->
  get_command_handler self command = Ok h.
Proof.
  intros Hb Hm Hh. unfold get_command_handler, get_current_module, getattr.
  rewrite Hb, Hm. cbn. rewrite Hh. reflexivity.
Qed.

Lemma get_command_handler_unknown (self : interpreter) (command : string) :
  attrs self !! ("command_" +:+ command) = None ->
  (forall m, current_module self = Some m ->
             m !! ("command_" +:+ command) = None) ->
  get_command_handler self command = Raise (unknown_command command).
Proof.
  intros Hb Hm. unfold get_command_handler, get_current_module, getattr.
  rewrite Hb. cbn. destruct (current_module self) as [m|]; cbn.
  - rewrite (Hm m eq_refl). reflexivity.
  - reflexivity.
Qed.

(** C2: [get_command_handler] returns the shell's own [command_<name>]
    when there is one, whatever the current module defines; failing
    that, the current module's; failing both, it raises the exception
    whose message is [Unknown command: '<name>'], which contains the
    command text.  With [command_ping] on both sides the built-in is
    returned, and [xyz] is unknown. *)
Theorem get_command_handler_precedence (self : interpreter) (command : string) :
  (forall h, attrs self !! ("command_" +:+ command) = Some h ->
             get_command_handler self command = Ok h) /\
  (forall m h, attrs self !! ("command_" +:+ command) = None ->
               current_module self = Some m ->
               m !! ("command_" +:+ command) = Some h ->
               get_command_handler self command = Ok h) /\
  (attrs self !! ("command_" +:+ command) = None ->
   (forall m, current_module self = Some m ->
              m !! ("command_" +:+ command) = None) ->
   exists msg,
     get_command_handler self command = Raise (icssploitException msg) /\
     PyStr.contains msg command = true) /\
  get_command_handler Examples.ping_shell "ping" = Ok Examples.builtin_ping /\
  get_command_handler Examples.ping_shell "run" = Ok (Examples.returns 3) /\
  get_command_handler Examples.ping_shell "xyz"
  = Raise (icssploitException "Unknown command: 'xyz'").
Proof.
  split; [apply get_command_handler_builtin|].
  split; [intros m h; apply get_command_handler_module|].
  split.
  { intros Hb Hm. eexists. split.
    - apply get_command_handler_unknown; assumption.
    - apply contains_middle. }
  repeat split; vm_compute; reflexivity.
Qed.

Lemma get_command_handler_precedence_witness :
  get_command_handler Examples.ping_shell "ping" = Ok Examples.builtin_ping.
Proof.
  apply (proj1 (get_command_handler_precedence Examples.ping_shell "ping")).
  vm_compute. reflexivity.
Defined.

(** C10: with no [current_module] attribute on the shell and no
    built-in of that name, [get_command_handler] raises the same
    [icssploitException] with [Unknown command: '<name>']: the
    [AttributeError] of [self.current_module] is caught by the inner
    [except]. *)
Theorem get_command_handler_no_module (self : interpreter) (command : string) :
  current_module self = None ->
  attrs self !! ("command_" +:+ command) = None ->
  get_current_module self = Raise AttributeError /\
  get_command_handler self command
  = Raise (icssploitException ("Unknown command: '" +:+ command +:+ "'")).
Proof.
  intros Hm Hb. split.
  - unfold get_current_module. rewrite Hm. reflexivity.
  - apply get_command_handler_unknown; [exact Hb|].
    intros m Hm'. congruence.
Qed.

Lemma get_command_handler_no_module_witness :
  get_command_handler Examples.bare_shell "xyz"
  = Raise (icssploitException "Unknown command: 'xyz'").
Proof.
  apply (proj2 (get_command_handler_no_module Examples.bare_shell "xyz"
                  eq_refl eq_refl)).
Defined.

(** ** Command names *)

(** C8: on a shell that defines [command_exit] and
    [command_show_options], [commands] (and so the default
    [suggested_commands]) lists [options], the piece after the last
    underscore, where the command is [show_options]: the name listed
    resolves to no handler and the name that resolves is not listed. *)
Theorem commands_underscore_name :
  commands Examples.options_shell = ["exit"; "options"] /\
  suggested_commands Examples.options_shell = ["exit"; "options"] /\
  get_command_handler Examples.options_shell "show_options"
  = Ok (Examples.returns 0) /\
  get_command_handler Examples.options_shell "options"
  = Raise (icssploitException "Unknown command: 'options'") /\
  ~ In "show_options" (suggested_commands Examples.options_shell).
Proof.
  assert (H : commands Examples.options_shell = ["exit"; "options"])
    by (vm_compute; reflexivity).
  split; [exact H|].
  split; [exact H|].
  split; [vm_compute; reflexivity|].
  split; [vm_compute; reflexivity|].
  unfold suggested_commands. cbn [suggested_override Examples.options_shell Examples.shell].
  rewrite H. cbn [In]. intros [E|[E|[]]]; discriminate E.
Qed.

(** ** Completion *)

Lemma complete_at_zero (self : interpreter) (rl : readline) (text : string)
    (l : list string) :
  completion_candidates self rl text = Ok l ->
  complete self rl text 0
  = (Ok (nth_error l 0), set_completion_matches self l).
Proof.
  intros H. unfold complete. cbn [Z.eqb]. rewrite H.
  cbn [bind completion_matches set_completion_matches].
  unfold py_index. destruct l as [|a l]; reflexivity.
Qed.

(** C6: at command position (start offset 0 in the left-stripped line)
    the candidate list computed and cached by [complete] is
    [suggested_commands()] filtered to the names that start with the
    fragment, in the order of [suggested_commands()].  With built-ins
    scan, status and stop, the empty fragment gives the three, in that
    order, and [sc] gives scan alone. *)
Theorem command_position_candidates :
  (forall self rl text,
     start_index_of rl = 0 ->
     completion_candidates self rl text
     = Ok (filter (fun entry => PyStr.startswith entry text = true)
                  (suggested_commands self)) /\
     completion_matches (snd (complete self rl text 0))
     = Some (filter (fun entry => PyStr.startswith entry text = true)
                    (suggested_commands self))) /\
  suggested_commands Examples.scan_shell = ["scan"; "status"; "stop"] /\
  completion_candidates Examples.scan_shell (Examples.at_command "") ""
  = Ok ["scan"; "status"; "stop"] /\
  completion_candidates Examples.scan_shell (Examples.at_command "sc") "sc"
  = Ok ["scan"].
Proof.
  split.
  { intros self rl text H.
    assert (Hc : completion_candidates self rl text
                 = Ok (filter (fun entry => PyStr.startswith entry text = true)
                              (suggested_commands self))).
    { unfold completion_candidates, complete_function. rewrite H. reflexivity. }
    split; [exact Hc|].
    rewrite (complete_at_zero _ _ _ _ Hc). reflexivity. }
  repeat split; vm_compute; reflexivity.
Qed.

Lemma command_position_candidates_witness :
  completion_candidates Examples.scan_shell (Examples.at_command "  st") "st"
  = Ok (filter (fun entry => PyStr.startswith entry "st" = true)
               (suggested_commands Examples.scan_shell)).
Proof.
  apply (proj1 (proj1 command_position_candidates Examples.scan_shell
                  (Examples.at_command "  st") "st" eq_refl)).
Defined.

Section ArgumentPosition.

Import PyStr.

Lemma lstrip_head (s : string) (c : ascii) (s' : string) :
  lstrip s = String c s' -> isspace c = false.
Proof.
  induction s as [|a s IH]; cbn [lstrip]; [discriminate|].
  destruct (isspace a) eqn:Ha; [exact IH|].
  intros E. injection E as <- _. exact Ha.
Qed.

(** A line that starts with a character other than whitespace has a
    command. *)
Lemma parse_line_command (c : ascii) (s : string) :
  isspace c = false ->
  exists h, fst (parse_line (String c s)) = String c h.
Proof.
  intros Hc. unfold parse_line, strip. cbn [rstrip].
  rewrite Hc, andb_false_r. cbn [lstrip]. rewrite Hc.
  cbn [partition].
  destruct (Ascii.eqb c space) eqn:Hs.
  - apply Ascii.eqb_eq in Hs. subst c. discriminate Hc.
  - destruct (partition space (rstrip s)) as [[h sp] t].
    exists h. reflexivity.
Qed.

Lemma argument_position_command (rl : readline) :
  begidx rl <= len (line_buffer rl) ->
  0 < start_index_of rl ->
  String.eqb (fst (parse_line (line_of rl))) "" = false.
Proof.
  unfold start_index_of, stripped_of, line_of, len. intros Hb Hs.
  destruct (lstrip (line_buffer rl)) as [|c s] eqn:Hl.
  - cbn [String.length] in Hs. lia.
  - destruct (parse_line_command c s (lstrip_head _ _ _ Hl)) as [h ->].
    reflexivity.
Qed.

End ArgumentPosition.

Lemma completion_candidates_argument (self : interpreter) (rl : readline)
    (text : string) :
  begidx rl <= PyStr.len (line_buffer rl) ->
  0 < start_index_of rl ->
  completion_candidates self rl text
  = let* f := try_except
                (getattr (attrs self)
                   ("complete_" +:+ fst (parse_line (line_of rl))))
                is_AttributeError
                (fun _ => Ok (PyCompleter default_completer)) in
    call_completer f text (line_of rl) (start_index_of rl) (end_index_of rl).
Proof.
  intros Hb Hs. unfold completion_candidates, complete_function.
  pose proof (argument_position_command rl Hb Hs) as Hc.
  apply Z.ltb_lt in Hs. rewrite Hs.
  destruct (parse_line (line_of rl)) as [cmd args]. cbn [fst] in *.
  rewrite Hc. reflexivity.
Qed.

(** C7: at argument position (start offset above 0, the fragment lying
    inside the line buffer) the command typed is never empty, and the
    candidate list depends on the shell's own attributes alone: with a
    [complete_<command>] there, it is what that returns on the fragment,
    the left-stripped line and the two offsets; with none, it is empty.
    For [set]: empty without [complete_set], and what [complete_set]
    returns with it. *)
Theorem argument_position_candidates :
  (forall self rl text,
     begidx rl <= PyStr.len (line_buffer rl) ->
     0 < start_index_of rl ->
     fst (parse_line (line_of rl)) <> "" /\
     (forall f,
        attrs self !! ("complete_" +:+ fst (parse_line (line_of rl)))
        = Some (PyCompleter f) ->
        completion_candidates self rl text
        = Ok (f text (line_of rl) (start_index_of rl) (end_index_of rl))) /\
     (attrs self !! ("complete_" +:+ fst (parse_line (line_of rl))) = None ->
      completion_candidates self rl text = Ok []) /\
     (forall self', attrs self' = attrs self ->
        completion_candidates self' rl text
        = completion_candidates self rl text)) /\
  completion_candidates Examples.unset_shell
    (Examples.at_argument "set ta" 4) "ta" = Ok [] /\
  completion_candidates Examples.set_shell
    (Examples.at_argument "set ta" 4) "ta"
  = Ok (Examples.set_candidates "ta" "set ta" 4 6) /\
  Examples.set_candidates "ta" "set ta" 4 6 = ["target"].
Proof.
  split.
  { intros self rl text Hb Hs.
    split.
    { pose proof (argument_position_command rl Hb Hs) as Hc.
      intros E. rewrite E in Hc. discriminate Hc. }
    split.
    { intros f Hf. rewrite (completion_candidates_argument _ _ _ Hb Hs).
      unfold getattr. rewrite Hf. reflexivity. }
    split.
    { intros Hn. rewrite (completion_candidates_argument _ _ _ Hb Hs).
      unfold getattr. rewrite Hn. reflexivity. }
    intros self' Ha.
    rewrite !(completion_candidates_argument _ _ _ Hb Hs), Ha. reflexivity. }
  repeat split; vm_compute; reflexivity.
Qed.

Lemma argument_position_candidates_witness :
  completion_candidates Examples.set_shell
    (Examples.at_argument "  set po" 6) "po" = Ok ["port"].
Proof.
  refine (proj1 (proj2 (proj1 argument_position_candidates Examples.set_shell
                          (Examples.at_argument "  set po" 6) "po" _ _))
            Examples.set_candidates _).
  - vm_compute. discriminate.
  - reflexivity.
  - vm_compute. reflexivity.
Defined.

Lemma py_index_nonneg {A} (l : list A) (i : Z) :
  0 <= i ->
  py_index l i = match nth_error l (Z.to_nat i) with
                 | Some a => Ok a
                 | None => Raise IndexError
                 end.
Proof.
  intros Hi. unfold py_index.
  destruct (i <? 0) eqn:Hneg; [apply Z.ltb_lt in Hneg; lia|].
  destruct (0 <=? i) eqn:H0; [|apply Z.leb_gt in H0; lia].
  destruct (i <? Z.of_nat (length l)) eqn:Hlt; cbn [andb]; [reflexivity|].
  apply Z.ltb_ge in Hlt.
  assert (Hn : nth_error l (Z.to_nat i) = None)
    by (apply nth_error_None; lia).
  rewrite Hn. reflexivity.
Qed.

Lemma complete_cached (self : interpreter) (rl : readline) (text : string)
    (i : Z) (l : list string) :
  completion_matches self = Some l ->
  0 < i ->
  complete self rl text i = (Ok (nth_error l (Z.to_nat i)), self).
Proof.
  intros Hm Hi. unfold complete.
  destruct (i =? 0) eqn:E; [apply Z.eqb_eq in E; lia|].
  rewrite Hm. cbn [bind]. rewrite py_index_nonneg by lia.
  destruct (nth_error l (Z.to_nat i)); reflexivity.
Qed.

Lemma complete_calls_cached (self : interpreter) (rl : readline)
    (text : string) (l : list string) (states : list Z) :
  completion_matches self = Some l ->
  Forall (fun i => 0 < i) states ->
  complete_calls self rl text states
  = (map (fun i => Ok (nth_error l (Z.to_nat i))) states, self).
Proof.
  intros Hm Hs. induction Hs as [|i states Hi _ IH]; [reflexivity|].
  cbn [complete_calls map].
  rewrite (complete_cached _ _ _ _ _ Hm Hi), IH. reflexivity.
Qed.

(** C5: the call with index 0 computes the candidate list, stores it in
    [completion_matches] and returns its first entry ([None] when it is
    empty); a later call with index [i > 0] returns the [i]-th entry of
    the stored list, whatever the fragment and the line buffer are by
    then, and leaves the store as it is; from the length of the list on
    it returns [None]; and so does every run of such calls. *)
Theorem completion_pull_protocol (self : interpreter) (rl : readline)
    (text : string) (l : list string) :
  completion_candidates self rl text = Ok l ->
  complete self rl text 0
  = (Ok (nth_error l 0), set_completion_matches self l) /\
  completion_matches (snd (complete self rl text 0)) = Some l /\
  (forall rl' text' i,
     0 < i ->
     complete (snd (complete self rl text 0)) rl' text' i
     = (Ok (nth_error l (Z.to_nat i)), snd (complete self rl text 0))) /\
  (forall rl' text' i,
     0 < i -> Z.of_nat (length l) <= i ->
     complete (snd (complete self rl text 0)) rl' text' i
     = (Ok None, snd (complete self rl text 0))) /\
  (l = [] -> fst (complete self rl text 0) = Ok None) /\
  (forall rl' text' states,
     Forall (fun i => 0 < i) states ->
     complete_calls (snd (complete self rl text 0)) rl' text' states
     = (map (fun i => Ok (nth_error l (Z.to_nat i))) states,
        snd (complete self rl text 0))).
Proof.
  intros H. rewrite (complete_at_zero _ _ _ _ H). cbn [snd fst].
  split; [reflexivity|].
  split; [reflexivity|].
  split; [intros; apply complete_cached; [reflexivity | assumption]|].
  split.
  { intros rl' text' i Hi Hlen.
    rewrite (complete_cached (set_completion_matches self l) rl' text' i l
               eq_refl Hi).
    assert (Hn : nth_error l (Z.to_nat i) = None)
      by (apply nth_error_None; lia).
    rewrite Hn. reflexivity. }
  split; [intros ->; reflexivity|].
  intros rl' text' states Hs. apply complete_calls_cached; [reflexivity | exact Hs].
Qed.

Lemma completion_pull_protocol_witness :
  complete_calls
    (snd (complete Examples.scan_shell (Examples.at_command "s") "s" 0))
    (Examples.at_command "s") "s" [1; 2; 3]
  = ([Ok (Some "status"); Ok (Some "stop"); Ok None],
     set_completion_matches Examples.scan_shell ["scan"; "status"; "stop"]).
Proof.
  refine (proj2 (proj2 (proj2 (proj2 (proj2
            (completion_pull_protocol Examples.scan_shell
               (Examples.at_command "s") "s" ["scan"; "status"; "stop"] _)))))
            (Examples.at_command "s") "s" [1; 2; 3] _).
  - vm_compute. reflexivity.
  - repeat constructor.
Defined.

(** ** The main loop *)

Section LoopFacts.

Variable utils_puts : utils_call -> nat.
Variable after_call : interpreter -> string -> string -> interpreter.

Local Abbreviation turn := (iteration utils_puts after_call).
Local Abbreviation run_loop := (loop utils_puts after_call).
Local Abbreviation run_start := (start utils_puts after_call).

Lemma iteration_unknown (self : interpreter) (line command args msg : string)
    (q : nat) :
  parse_line line = (command, args) ->
  command <> "" ->
  get_command_handler self command = Raise (icssploitException msg) ->
  turn self (Line line) q
  = ([EvInput (prompt self) q; EvUtils (print_error msg); EvJoin],
     0%nat, Fallthrough, self).
Proof.
  intros Hp Hc Hh. unfold iteration, try_body. cbn [input]. rewrite Hp.
  apply String.eqb_neq in Hc. rewrite Hc, Hh. reflexivity.
Qed.

Lemma iteration_domain_error (self : interpreter)
    (line command args msg : string) (h : pyvalue) (q : nat) :
  parse_line line = (command, args) ->
  command <> "" ->
  get_command_handler self command = Ok h ->
  h_raise (call_handler h args) = Some (icssploitException msg) ->
  turn self (Line line) q
  = ([EvInput (prompt self) q; EvCall command args;
      EvUtils (print_error msg); EvJoin],
     0%nat, Fallthrough, after_call self command args).
Proof.
  intros Hp Hc Hh Hr. unfold iteration, try_body. cbn [input]. rewrite Hp.
  apply String.eqb_neq in Hc. rewrite Hc, Hh, Hr. reflexivity.
Qed.

Lemma iteration_success (self : interpreter) (line command args : string)
    (h : pyvalue) (q : nat) :
  parse_line line = (command, args) ->
  command <> "" ->
  get_command_handler self command = Ok h ->
  h_raise (call_handler h args) = None ->
  turn self (Line line) q
  = ([EvInput (prompt self) q; EvCall command args; EvJoin],
     0%nat, Fallthrough, after_call self command args).
Proof.
  intros Hp Hc Hh Hr. unfold iteration, try_body. cbn [input]. rewrite Hp.
  apply String.eqb_neq in Hc. rewrite Hc, Hh, Hr. reflexivity.
Qed.

Lemma iteration_eof (self : interpreter) (q : nat) :
  turn self EndOfInput q
  = ([EvInput (prompt self) q; EvUtils print_info;
      EvUtils (print_status "icssploit stopped"); EvJoin],
     0%nat, Break, self).
Proof. reflexivity. Qed.

Lemma iteration_interrupt (self : interpreter) (q : nat) :
  turn self Interrupt q
  = ([EvInput (prompt self) q; EvUtils print_info; EvJoin],
     0%nat, Fallthrough, self).
Proof. reflexivity. Qed.

Lemma iteration_empty_command (self : interpreter) (line : string) (q : nat) :
  fst (parse_line line) = "" ->
  turn self (Line line) q
  = ([EvInput (prompt self) q; EvJoin], 0%nat, Continue, self).
Proof.
  intros Hp. unfold iteration, try_body. cbn [input].
  destruct (parse_line line) as [command args]. cbn [fst] in Hp. subst command.
  reflexivity.
Qed.

Lemma loop_goes_on (self self' : interpreter) (r : read) (rest : list read)
    (q q' : nat) (evs : list event) (s : signal) :
  turn self r q = (evs, q', s, self') ->
  s = Fallthrough \/ s = Continue ->
  run_loop self (r :: rest) q = followed_by evs (run_loop self' rest q').
Proof.
  intros Hi Hs. cbn [loop]. rewrite Hi. unfold followed_by.
  destruct (loop utils_puts after_call self' rest q') as [evs' x].
  destruct Hs as [-> | ->]; reflexivity.
Qed.

(** Whatever happens in a turn, its events are the prompt, then no
    other prompt, then the drain; and nothing is left unfinished. *)
Lemma iteration_shape (self : interpreter) (r : read) (q : nat) :
  exists mid,
    events_of (turn self r q)
    = (EvInput (prompt self) q :: mid ++ [EvJoin])%list /\
    forallb (fun ev => negb (is_input ev)) mid = true /\
    unfinished_of (turn self r q) = 0%nat.
Proof.
  exists (removelast (tl (events_of (turn self r q)))).
  unfold iteration, try_body.
  destruct (input r) as [line|e].
  - destruct (parse_line line) as [command args].
    destruct (String.eqb command "").
    + repeat split.
    + destruct (get_command_handler self command) as [h|e].
      * destruct (h_raise (call_handler h args)) as [e|].
        -- destruct e; repeat split.
        -- repeat split.
      * destruct e; repeat split.
  - destruct e; repeat split.
Qed.

Lemma drained_skip (mid rest : list event) (b : bool) :
  forallb (fun ev => negb (is_input ev)) mid = true ->
  drained_before_input b (mid ++ EvJoin :: rest)%list
  = drained_before_input true rest.
Proof.
  revert b. induction mid as [|ev mid IH]; intros b H; [reflexivity|].
  cbn [forallb] in H. apply andb_prop in H as [Hev Hmid].
  destruct ev; cbn in Hev; try discriminate Hev;
    cbn [app drained_before_input]; apply IH, Hmid.
Qed.

Lemma quiet_unfinished (mid : list event) :
  forallb (fun ev => negb (is_input ev)) mid = true ->
  Forall (fun ev => input_unfinished ev = 0%nat) mid.
Proof.
  induction mid as [|ev mid IH]; intros H; [constructor|].
  cbn [forallb] in H. apply andb_prop in H as [Hev Hmid].
  constructor; [|apply IH, Hmid].
  destruct ev; cbn in Hev; try discriminate Hev; reflexivity.
Qed.

(** One turn in front of a drained trace gives a drained trace. *)
Lemma turn_drained (p : string) (mid rest : list event) :
  forallb (fun ev => negb (is_input ev)) mid = true ->
  drained_before_input true rest = true ->
  Forall (fun ev => input_unfinished ev = 0%nat) rest ->
  (rest = [] \/ last rest = Some EvJoin) ->
  let t := ((EvInput p 0 :: mid ++ [EvJoin]) ++ rest)%list in
  drained_before_input true t = true /\
  Forall (fun ev => input_unfinished ev = 0%nat) t /\
  last t = Some EvJoin.
Proof.
  intros Hmid Hd Hf Hl t. subst t.
  rewrite <- app_comm_cons, <- app_assoc. cbn [app].
  split; [|split].
  - cbn [drained_before_input andb]. rewrite (drained_skip _ _ _ Hmid). exact Hd.
  - constructor; [reflexivity|].
    apply Forall_app_2; [apply quiet_unfinished, Hmid|].
    constructor; [reflexivity | exact Hf].
  - rewrite last_cons, last_app_cons.
    destruct Hl as [-> | Hl]; [reflexivity|].
    rewrite last_cons, Hl. reflexivity.
Qed.

Lemma loop_drained (inputs : list read) (self : interpreter) :
  let t := fst (run_loop self inputs 0) in
  drained_before_input true t = true /\
  Forall (fun ev => input_unfinished ev = 0%nat) t /\
  last t = Some EvJoin.
Proof.
  revert self. induction inputs as [|r rest IH]; intros self.
  - cbn. repeat split; repeat constructor.
  - cbn [loop].
    destruct (iteration_shape self r 0) as [mid [He [Hm Hq]]].
    destruct (turn self r 0) as [[[evs q'] s] self'] eqn:Hi.
    unfold events_of, unfinished_of in He, Hq. cbn [fst snd] in He, Hq.
    subst evs q'.
    assert (Hstop : forall x : exit,
               let t := fst ((EvInput (prompt self) 0 :: mid ++ [EvJoin])%list, x) in
               drained_before_input true t = true /\
               Forall (fun ev => input_unfinished ev = 0%nat) t /\
               last t = Some EvJoin).
    { intros x. cbn [fst].
      rewrite <- (app_nil_r (EvInput _ _ :: _)).
      apply turn_drained; auto. }
    destruct s; try apply Hstop.
    all: specialize (IH self');
      destruct (loop utils_puts after_call self' rest 0) as [evs' x];
      cbn [fst] in *; destruct IH as [Hd [Hf Hl]];
      apply turn_drained; auto.
Qed.

Lemma start_drained (self : interpreter) (inputs : list read) (q0 : nat) :
  let t := fst (run_start self inputs q0) in
  drained_before_input false t = true /\
  Forall (fun ev => input_unfinished ev = 0%nat) t /\
  last t = Some EvJoin.
Proof.
  unfold start, join.
  pose proof (loop_drained inputs self) as H.
  destruct (loop utils_puts after_call self inputs 0) as [evs x].
  cbn [fst] in *. destruct H as [Hd [Hf Hl]].
  split; [exact Hd|]. split.
  - repeat constructor. exact Hf.
  - rewrite !last_cons, Hl. reflexivity.
Qed.

End LoopFacts.

(** C3: in every turn of the loop, whatever the [try] block does (the
    handler returns, a recoverable error is caught, input ends, Ctrl-C
    is hit, the command is empty, an exception escapes), the events of
    the turn are one prompt, then no other prompt, then the drain of
    the [finally] clause, which leaves no task unfinished.  In a whole
    run of [start] every prompt comes right after a drain, is shown with
    no task unfinished, and the run ends with a drain. *)
Theorem drain_runs_in_every_iteration
    (utils_puts : utils_call -> nat)
    (after_call : interpreter -> string -> string -> interpreter) :
  (forall self r q,
     exists mid,
       events_of (iteration utils_puts after_call self r q)
       = (EvInput (prompt self) q :: mid ++ [EvJoin])%list /\
       forallb (fun ev => negb (is_input ev)) mid = true /\
       unfinished_of (iteration utils_puts after_call self r q) = 0%nat) /\
  (forall self inputs q0,
     drained_before_input false
       (fst (start utils_puts after_call self inputs q0)) = true /\
     Forall (fun ev => input_unfinished ev = 0%nat)
       (fst (start utils_puts after_call self inputs q0)) /\
     last (fst (start utils_puts after_call self inputs q0)) = Some EvJoin).
Proof.
  split.
  - apply iteration_shape.
  - intros self inputs q0. apply start_drained.
Qed.

(** C9: a turn whose command is unknown, or whose handler raises an
    [icssploitException], prints the message with [print_error], drains,
    and the loop goes on with the next prompt; end of input prints an
    empty [print_info] and the status [icssploit stopped], drains, and
    ends the loop without reading what might follow; Ctrl-C prints an
    empty [print_info] and nothing else, drains, and the loop goes on; a
    line with an empty command drains and goes on with no handler
    called. *)
Theorem main_loop_outcomes
    (utils_puts : utils_call -> nat)
    (after_call : interpreter -> string -> string -> interpreter)
    (self : interpreter) (rest : list read) (q : nat) :
  (forall line command args,
     parse_line line = (command, args) ->
     command <> "" ->
     get_command_handler self command = Raise (unknown_command command) ->
     loop utils_puts after_call self (Line line :: rest) q
     = followed_by
         [EvInput (prompt self) q;
          EvUtils (print_error ("Unknown command: '" +:+ command +:+ "'"));
          EvJoin]
         (loop utils_puts after_call self rest 0)) /\
  (forall line command args h msg,
     parse_line line = (command, args) ->
     command <> "" ->
     get_command_handler self command = Ok h ->
     h_raise (call_handler h args) = Some (icssploitException msg) ->
     loop utils_puts after_call self (Line line :: rest) q
     = followed_by
         [EvInput (prompt self) q; EvCall command args;
          EvUtils (print_error msg); EvJoin]
         (loop utils_puts after_call (after_call self command args) rest 0)) /\
  loop utils_puts after_call self (EndOfInput :: rest) q
  = ([EvInput (prompt self) q; EvUtils print_info;
      EvUtils (print_status "icssploit stopped"); EvJoin], Terminated) /\
  loop utils_puts after_call self (Interrupt :: rest) q
  = followed_by [EvInput (prompt self) q; EvUtils print_info; EvJoin]
      (loop utils_puts after_call self rest 0) /\
  (forall line,
     fst (parse_line line) = "" ->
     loop utils_puts after_call self (Line line :: rest) q
     = followed_by [EvInput (prompt self) q; EvJoin]
         (loop utils_puts after_call self rest 0)).
Proof.
  split.
  { intros line command args Hp Hc Hh.
    eapply loop_goes_on; [|left; reflexivity].
    eapply iteration_unknown; eassumption. }
  split.
  { intros line command args h msg Hp Hc Hh Hr.
    eapply loop_goes_on; [|left; reflexivity].
    eapply iteration_domain_error; eassumption. }
  split; [reflexivity|].
  split.
  { eapply loop_goes_on; [apply iteration_interrupt | left; reflexivity]. }
  intros line Hp.
  eapply loop_goes_on; [apply iteration_empty_command, Hp | right; reflexivity].
Qed.

Lemma main_loop_outcomes_witness :
  loop (fun _ => 1%nat) (fun s _ _ => s) Examples.ping_shell
       [Line "xyz 1"; Interrupt] 0
  = ([EvInput ">>>" 0; EvUtils (print_error "Unknown command: 'xyz'"); EvJoin;
      EvInput ">>>" 0; EvUtils print_info; EvJoin;
      EvInput ">>>" 0; EvUtils print_info;
      EvUtils (print_status "icssploit stopped"); EvJoin],
     Terminated).
Proof.
  refine (proj1 (main_loop_outcomes _ _ Examples.ping_shell [Interrupt] 0%nat)
            "xyz 1" "xyz" "1" _ _ _).
  - reflexivity.
  - discriminate.
  - reflexivity.
Defined.

(** ** The printer worker *)

Section PrinterFacts.

Import Printer.

Lemma run_items_spec (its : list request) :
  forall (n : nat) (fs : gmap nat stream),
    (length its <= n)%nat ->
    let s' := run_items its n fs in
    let done := writable_prefix fs its in
    files s' = write_all fs its /\
    unfinished_tasks (queue s') = (n - length done)%nat /\
    items (queue s') = drop (S (length done)) its /\
    (done = its -> worker s' = Waiting) /\
    (forall r, its !! length done = Some r ->
       exists e, print (write_all fs its) r = Raise e /\
                 worker s' = Dead e /\
                 (0 < unfinished_tasks (queue s'))%nat).
Proof.
  induction its as [|r rest IH]; intros n fs Hn.
  - cbn. repeat split; try lia. intros r Hr. discriminate Hr.
  - cbn [run_items writable_prefix write_all].
    destruct (print fs r) as [fs'|e] eqn:Hp.
    + destruct n as [|n']; [cbn in Hn; lia|]. cbn [task_done].
      cbn [length] in Hn. assert (Hn' : (length rest <= n')%nat) by lia.
      destruct (IH n' fs' Hn') as [Hf [Hu [Hi [Hw Hd]]]].
      cbn [length]. repeat split.
      * exact Hf.
      * rewrite Hu. lia.
      * exact Hi.
      * intros E. apply Hw. injection E as E. exact E.
      * intros r0 Hr0. cbn in Hr0. apply Hd, Hr0.
    + cbn [files queue items unfinished_tasks worker length].
      split; [reflexivity|].
      split; [lia|].
      split; [reflexivity|].
      split; [intros E; discriminate E|].
      intros r0 Hr0. injection Hr0 as <-. exists e.
      split; [exact Hp|]. split; [reflexivity | cbn [length] in Hn; lia].
Qed.

End PrinterFacts.

(** C4, as the specification words it, fails: with a request for a
    closed stream in front of one for an open stream, [run] is left by
    the [ValueError] of the first write; the second request stays in
    the queue unwritten, and so does whatever is enqueued later. *)
Lemma worker_dies_on_closed_stream :
  Printer.worker (Printer.run Printer.broken_state) = Printer.Dead ValueError /\
  Printer.items (Printer.queue (Printer.run Printer.broken_state))
  = [Printer.to_open] /\
  Printer.output (Printer.run Printer.broken_state) 2 = Some "" /\
  Printer.output
    (Printer.run (Printer.enqueue Printer.to_open
                    (Printer.run Printer.broken_state))) 2 = Some "" /\
  ~ (forall s, Printer.worker s = Printer.Waiting ->
               Printer.worker (Printer.run s) = Printer.Waiting).
Proof.
  assert (H : Printer.worker (Printer.run Printer.broken_state)
              = Printer.Dead ValueError) by (vm_compute; reflexivity).
  split; [exact H|].
  split; [vm_compute; reflexivity|].
  split; [vm_compute; reflexivity|].
  split; [vm_compute; reflexivity|].
  intros Hall. specialize (Hall Printer.broken_state eq_refl).
  rewrite H in Hall. discriminate Hall.
Qed.

(** C4 (amended): the worker does not catch a write error.  On a queue
    in which every waiting item was counted when put, [run] writes the
    requests in queue order up to the first one whose write fails; if
    none fails it is back waiting on an empty queue; otherwise the
    exception of the failing write ends the worker, the failing request
    is never marked done, so some task stays unfinished, and requests
    enqueued afterwards are not taken up. *)
Theorem worker_stops_at_first_failing_write
    (its : list Printer.request) (n : nat) (fs : gmap nat Printer.stream) :
  (length its <= n)%nat ->
  let s' := Printer.run (Printer.waiting_on its n fs) in
  let done := Printer.writable_prefix fs its in
  Printer.files s' = Printer.write_all fs its /\
  Printer.unfinished_tasks (Printer.queue s') = (n - length done)%nat /\
  Printer.items (Printer.queue s') = drop (S (length done)) its /\
  (done = its ->
   Printer.worker s' = Printer.Waiting /\
   Printer.items (Printer.queue s') = []) /\
  (forall r, its !! length done = Some r ->
     exists e,
       Printer.print (Printer.write_all fs its) r = Raise e /\
       Printer.worker s' = Printer.Dead e /\
       (0 < Printer.unfinished_tasks (Printer.queue s'))%nat /\
       forall r', Printer.run (Printer.enqueue r' s') = Printer.enqueue r' s').
Proof.
  intros Hn. unfold Printer.run, Printer.waiting_on. cbn zeta.
  cbn [Printer.worker Printer.queue Printer.items Printer.unfinished_tasks
       Printer.files].
  destruct (run_items_spec its n fs Hn) as [Hf [Hu [Hi [Hw Hd]]]].
  split; [exact Hf|]. split; [exact Hu|]. split; [exact Hi|].
  split.
  - intros E. split; [apply Hw, E|].
    rewrite Hi, E. apply drop_ge. lia.
  - intros r Hr. destruct (Hd r Hr) as [e [Hp [Hw' Hpos]]].
    exists e. repeat split; try assumption.
    intros r'. unfold Printer.enqueue at 1.
    cbn [Printer.worker]. rewrite Hw'. reflexivity.
Qed.

Lemma worker_stops_at_first_failing_write_witness :
  Printer.files (Printer.run Printer.healthy_state)
  = Printer.write_all Printer.two_streams [Printer.to_open; Printer.to_open] /\
  Printer.output (Printer.run Printer.healthy_state) 2
  = Some "hello world!hello world!".
Proof.
  split.
  - refine (proj1 (worker_stops_at_first_failing_write
                     [Printer.to_open; Printer.to_open] 2 Printer.two_streams _)).
    cbn. lia.
  - vm_compute. reflexivity.
Defined.

(** * Further properties *)

(** ** More on strings and parse_line *)

Section StripFacts.

Import PyStr.

Lemma lstrip_idem (s : string) : lstrip (lstrip s) = lstrip s.
Proof.
  induction s as [|a s IH]; [reflexivity|].
  cbn [lstrip]. destruct (isspace a) eqn:Ha; [exact IH|].
  cbn [lstrip]. rewrite Ha. reflexivity.
Qed.

Lemma rstrip_lstrip (s : string) : rstrip (lstrip s) = lstrip (rstrip s).
Proof.
  induction s as [|a s IH]; [reflexivity|].
  cbn [lstrip rstrip]. destruct (isspace a) eqn:Ha.
  - rewrite IH, andb_true_r.
    destruct (rstrip s) as [|b r]; cbn [is_empty]; [reflexivity|].
    cbn [lstrip]. rewrite Ha. reflexivity.
  - rewrite andb_false_r. cbn [lstrip rstrip]. rewrite Ha, andb_false_r.
    reflexivity.
Qed.

Lemma rstrip_idem (s : string) : rstrip (rstrip s) = rstrip s.
Proof.
  induction s as [|a s IH]; [reflexivity|].
  cbn [rstrip].
  destruct (is_empty (rstrip s) && isspace a) eqn:E; [reflexivity|].
  cbn [rstrip]. rewrite IH, E. reflexivity.
Qed.

Lemma strip_idem (s : string) : strip (strip s) = strip s.
Proof.
  unfold strip. rewrite rstrip_lstrip, rstrip_idem, lstrip_idem. reflexivity.
Qed.

Lemma take_while_forall (p : ascii -> bool) (s : string) :
  forall_chars p (take_while p s) = true.
Proof.
  induction s as [|a s IH]; [reflexivity|].
  cbn [take_while]. destruct (p a) eqn:Ha; [|reflexivity].
  cbn [forall_chars]. rewrite Ha, IH. reflexivity.
Qed.

Lemma lstrip_empty_blank (s : string) :
  lstrip s = "" -> forall_chars isspace s = true.
Proof.
  induction s as [|a s IH]; [reflexivity|].
  cbn [lstrip forall_chars]. destruct (isspace a); [exact IH | discriminate].
Qed.

Lemma rstrip_blank_inv (s : string) :
  forall_chars isspace (rstrip s) = true -> forall_chars isspace s = true.
Proof.
  induction s as [|a s IH]; [reflexivity|].
  cbn [rstrip forall_chars].
  destruct (is_empty (rstrip s)) eqn:He; cbn [andb].
  - apply is_empty_true in He. rewrite He in IH.
    destruct (isspace a) eqn:Ha.
    + intros _. rewrite IH; reflexivity.
    + cbn [forall_chars]. rewrite Ha. discriminate.
  - cbn [forall_chars]. intros H. apply andb_prop in H as [Ha Hs].
    rewrite Ha, (IH Hs). reflexivity.
Qed.

Lemma strip_empty_blank (s : string) :
  strip s = "" -> forall_chars isspace s = true.
Proof.
  unfold strip. intros H. apply rstrip_blank_inv, lstrip_empty_blank, H.
Qed.

(** A stripped line is empty or starts with a character that is not
    whitespace. *)
Lemma strip_head (s : string) (c : ascii) (r : string) :
  strip s = String c r -> isspace c = false.
Proof. unfold strip. apply lstrip_head. Qed.

End StripFacts.

Lemma parse_line_cmd_no_space (line : string) :
  PyStr.forall_chars (fun c => negb (is_space_char c)) (fst (parse_line line))
  = true.
Proof.
  rewrite parse_line_split_space. unfold split_first_run. cbn [fst].
  apply take_while_forall.
Qed.

(** X1: the command that [parse_line] returns never contains a space
    character, whatever the line. *)
Theorem parse_line_command_no_space (line : string) :
  PyStr.forall_chars (fun c => negb (is_space_char c)) (fst (parse_line line))
  = true.
Proof.
  rewrite parse_line_split_space. unfold split_first_run. cbn [fst].
  apply take_while_forall.
Qed.

Lemma parse_line_stripped_head (line : string) (c : ascii) (r : string) :
  PyStr.strip line = String c r ->
  exists h, fst (parse_line line) = String c h.
Proof.
  intros H. pose proof (strip_head _ _ _ H) as Hc.
  unfold parse_line. rewrite H. cbn [PyStr.partition].
  destruct (Ascii.eqb c PyStr.space) eqn:Hs.
  - apply Ascii.eqb_eq in Hs. subst c. discriminate Hc.
  - destruct (PyStr.partition PyStr.space r) as [[h sp] t].
    exists h. reflexivity.
Qed.

(** X2: the command is empty exactly when the line is blank (empty or
    all whitespace), and then the argument is empty too: the loop's
    [if not command: continue] skips the blank lines and no others. *)
Theorem parse_line_empty_command_iff_blank (line : string) :
  (fst (parse_line line) = "" <->
   PyStr.forall_chars PyStr.isspace line = true) /\
  (fst (parse_line line) = "" -> parse_line line = ("", "")).
Proof.
  assert (Hb : PyStr.forall_chars PyStr.isspace line = true ->
               parse_line line = ("", "")).
  { intros H. unfold parse_line. rewrite (strip_blank _ H). reflexivity. }
  assert (Hc : fst (parse_line line) = "" ->
               PyStr.forall_chars PyStr.isspace line = true).
  { intros H. apply strip_empty_blank.
    destruct (PyStr.strip line) as [|c r] eqn:Hs; [reflexivity|].
    destruct (parse_line_stripped_head _ _ _ Hs) as [h Hh].
    rewrite Hh in H. discriminate H. }
  split; [split|].
  - exact Hc.
  - intros H. rewrite (Hb H). reflexivity.
  - intros H. apply Hb, Hc, H.
Qed.

Lemma parse_line_empty_command_iff_blank_witness :
  parse_line (String PyStr.tab "  ") = ("", "").
Proof.
  apply (proj2 (parse_line_empty_command_iff_blank (String PyStr.tab "  "))).
  reflexivity.
Defined.

Lemma parse_line_args_stripped (line : string) :
  PyStr.strip (snd (parse_line line)) = snd (parse_line line).
Proof.
  unfold parse_line.
  destruct (PyStr.partition PyStr.space (PyStr.strip line)) as [[h sp] t].
  cbn [snd]. apply strip_idem.
Qed.

(** X3: the argument comes back stripped (stripping it again changes
    nothing), and whitespace around the line does not matter: the
    stripped line parses to the same pair. *)
Theorem parse_line_argument_stripped (line : string) :
  PyStr.strip (snd (parse_line line)) = snd (parse_line line) /\
  parse_line (PyStr.strip line) = parse_line line.
Proof.
  split.
  - apply parse_line_args_stripped.
  - unfold parse_line. rewrite strip_idem. reflexivity.
Qed.

Section RoundTripFacts.

Import PyStr.

Lemma str_length_app (x y : string) :
  String.length (x +:+ y) = (String.length x + String.length y)%nat.
Proof.
  induction x as [|a x IH]; [reflexivity|].
  change (String a x +:+ y) with (String a (x +:+ y)).
  cbn [String.length]. rewrite IH. reflexivity.
Qed.

Lemma rstrip_length (s : string) :
  (String.length (rstrip s) <= String.length s)%nat.
Proof.
  induction s as [|a s IH]; [reflexivity|].
  cbn [rstrip]. destruct (is_empty (rstrip s) && isspace a);
    cbn [String.length]; lia.
Qed.

(** Trailing whitespace is dropped together with what it follows. *)
Lemma rstrip_app_blank (x w : string) :
  forall_chars isspace w = true -> rstrip (x +:+ w) = rstrip x.
Proof.
  intros Hw. induction x as [|a x IH].
  - apply rstrip_blank, Hw.
  - change (String a x +:+ w) with (String a (x +:+ w)).
    cbn [rstrip]. rewrite IH. reflexivity.
Qed.

Lemma is_empty_app (x r : string) :
  is_empty r = false -> is_empty (x +:+ r) = false.
Proof. destruct x; [trivial | reflexivity]. Qed.

(** A tail that does not strip to nothing protects what precedes it. *)
Lemma rstrip_app_keep (x y : string) :
  is_empty (rstrip y) = false -> rstrip (x +:+ y) = x +:+ rstrip y.
Proof.
  intros Hy. induction x as [|a x IH]; [reflexivity|].
  change (String a x +:+ y) with (String a (x +:+ y)).
  cbn [rstrip]. rewrite IH, (is_empty_app _ _ Hy). reflexivity.
Qed.

Lemma partition_inv (c : ascii) (s : string) :
  forall h sp t, partition c s = (h, sp, t) ->
    (sp = "" /\ h = s /\ t = "") \/
    (sp = String c "" /\ s = h +:+ String c t).
Proof.
  induction s as [|a s IH]; intros h sp t Hp; cbn [partition] in Hp.
  - injection Hp as <- <- <-. left. repeat split.
  - destruct (Ascii.eqb a c) eqn:Ha.
    + injection Hp as <- <- <-. apply Ascii.eqb_eq in Ha. subst a.
      right. split; reflexivity.
    + destruct (partition c s) as [[h' sp'] t'] eqn:Hs.
      injection Hp as <- <- <-.
      destruct (IH h' sp' t' eq_refl) as [[-> [-> ->]] | [-> ->]].
      * left. repeat split.
      * right. split; reflexivity.
Qed.

Lemma partition_app (c : ascii) (h t : string) :
  forall_chars (fun a => negb (Ascii.eqb a c)) h = true ->
  partition c (h +:+ String c t) = (h, String c "", t).
Proof.
  induction h as [|a h IH]; intros Hh.
  - change ("" +:+ String c t) with (String c t).
    cbn [partition]. rewrite Ascii.eqb_refl. reflexivity.
  - cbn [forall_chars] in Hh. apply andb_prop in Hh as [Ha Hh].
    change (String a h +:+ String c t) with (String a (h +:+ String c t)).
    cbn [partition]. apply negb_true_iff in Ha. rewrite Ha, (IH Hh).
    reflexivity.
Qed.

Lemma rstrip_strip (s : string) : rstrip (strip s) = strip s.
Proof. unfold strip. rewrite rstrip_lstrip, rstrip_idem. reflexivity. Qed.

End RoundTripFacts.

(** X4: joining the command and the argument of a parsed line with one
    space gives a line that parses to the same pair: [parse_line] brings
    every line to a normal form. *)
Theorem parse_line_round_trip (line : string) :
  parse_line (fst (parse_line line) +:+ " " +:+ snd (parse_line line))
  = parse_line line.
Proof.
  pose proof (parse_line_cmd_no_space line) as Hns.
  unfold parse_line in *.
  pose proof (rstrip_strip line) as Hr.
  pose proof (strip_idem line) as Hi.
  destruct (PyStr.partition PyStr.space (PyStr.strip line)) as [[c sp] t] eqn:Hp.
  cbn [fst snd] in *.
  destruct (partition_inv _ _ _ _ _ Hp) as [[-> [-> ->]] | [-> Hs]].
  - (* no space in the stripped line *)
    assert (E : PyStr.strip (PyStr.strip line +:+ " " +:+ PyStr.strip "")
                = PyStr.strip line).
    { unfold PyStr.strip at 1. rewrite rstrip_app_blank by reflexivity.
      exact Hi. }
    rewrite E, Hp. reflexivity.
  - destruct (PyStr.is_empty (PyStr.strip t)) eqn:Ha.
    + (* a blank tail would have been stripped with the line *)
      exfalso. apply is_empty_true in Ha.
      assert (Hb : PyStr.forall_chars PyStr.isspace (String PyStr.space t) = true)
        by (cbn [PyStr.forall_chars]; rewrite (strip_empty_blank _ Ha); reflexivity).
      rewrite Hs, (rstrip_app_blank _ _ Hb) in Hr.
      pose proof (rstrip_length c) as Hl. rewrite Hr, str_length_app in Hl.
      cbn [String.length] in Hl. lia.
    + assert (Hra : PyStr.rstrip (PyStr.strip t) = PyStr.strip t)
        by apply rstrip_strip.
      assert (Hsa : PyStr.rstrip (String PyStr.space (PyStr.strip t))
                    = String PyStr.space (PyStr.strip t)).
      { cbn [PyStr.rstrip]. rewrite Hra, Ha. reflexivity. }
      assert (E : PyStr.strip (c +:+ " " +:+ PyStr.strip t)
                  = c +:+ String PyStr.space (PyStr.strip t)).
      { unfold PyStr.strip at 1.
        change (" " +:+ PyStr.strip t) with (String PyStr.space (PyStr.strip t)).
        rewrite rstrip_app_keep by (rewrite Hsa; reflexivity).
        rewrite Hsa.
        destruct c as [|x c'].
        - (* the stripped line does not start with a space *)
          cbn in Hs. apply strip_head in Hs. discriminate Hs.
        - change (String x c' +:+ String PyStr.space t)
            with (String x (c' +:+ String PyStr.space t)) in Hs.
          apply strip_head in Hs.
          change (String x c' +:+ String PyStr.space (PyStr.strip t))
            with (String x (c' +:+ String PyStr.space (PyStr.strip t))).
          cbn [PyStr.lstrip]. rewrite Hs. reflexivity. }
      rewrite E, (partition_app _ _ _ Hns), strip_idem. reflexivity.
Qed.

(** ** More on handler resolution and command names *)

(** X5: [get_command_handler] has two outcomes only.  It returns an
    attribute [command_<name>], the shell's own or, when the shell has
    none, the current module's; or it raises [icssploitException] with
    the unknown-command message, and then neither defines the name.  No
    [AttributeError] ever leaves it. *)
Theorem get_command_handler_outcomes (self : interpreter) (command : string) :
  (exists h,
     get_command_handler self command = Ok h /\
     (attrs self !! ("command_" +:+ command) = Some h \/
      attrs self !! ("command_" +:+ command) = None /\
      exists m, current_module self = Some m /\
                m !! ("command_" +:+ command) = Some h)) \/
  (get_command_handler self command = Raise (unknown_command command) /\
   attrs self !! ("command_" +:+ command) = None /\
   forall m, current_module self = Some m ->
             m !! ("command_" +:+ command) = None).
Proof.
  destruct (attrs self !! ("command_" +:+ command)) as [h|] eqn:Hb.
  - left. exists h. split; [apply get_command_handler_builtin, Hb | left; reflexivity].
  - destruct (current_module self) as [m|] eqn:Hm.
    + destruct (m !! ("command_" +:+ command)) as [h|] eqn:Hh.
      * left. exists h. split.
        -- eapply get_command_handler_module; eassumption.
        -- right. split; [reflexivity|]. exists m. split; [reflexivity | exact Hh].
      * right. split; [|split; [reflexivity|]].
        -- apply get_command_handler_unknown; [exact Hb|].
           intros m' Hm'. rewrite Hm in Hm'. injection Hm' as <-. exact Hh.
        -- intros m' Hm'. injection Hm' as <-. exact Hh.
    + right. split; [|split; [reflexivity|]].
      * apply get_command_handler_unknown; [exact Hb|].
        intros m' Hm'. rewrite Hm in Hm'. discriminate Hm'.
      * intros m' Hm'. discriminate Hm'.
Qed.

Section CommandNames.

Import PyStr.

Lemma rsplit_cons (c : ascii) (s : string) :
  exists h t, rsplit c s = h :: t.
Proof.
  induction s as [|a s [h [t IH]]]; cbn [rsplit].
  - eexists _, _. reflexivity.
  - destruct (Ascii.eqb a c); [eexists _, _; reflexivity|].
    rewrite IH. eexists _, _. reflexivity.
Qed.

Lemma pop_cons (x h : string) (t : list string) :
  pop (x :: h :: t) = pop (h :: t).
Proof. reflexivity. Qed.

(** The piece that [rsplit(c).pop()] keeps has no [c] in it. *)
Lemma pop_rsplit_no_sep (c : ascii) (s : string) :
  forall_chars (fun a => negb (Ascii.eqb a c)) (pop (rsplit c s)) = true.
Proof.
  induction s as [|a s IH]; [reflexivity|].
  cbn [rsplit]. destruct (rsplit_cons c s) as [h [t Hs]].
  rewrite Hs in *. destruct (Ascii.eqb a c) eqn:Ha.
  - rewrite pop_cons. exact IH.
  - destruct t as [|h' t].
    + unfold pop in *. cbn [List.last] in *. cbn [forall_chars].
      rewrite Ha, IH. reflexivity.
    + rewrite pop_cons. rewrite pop_cons in IH. exact IH.
Qed.

(** Without the separator there is one piece: the string itself. *)
Lemma rsplit_no_sep (c : ascii) (s : string) :
  forall_chars (fun a => negb (Ascii.eqb a c)) s = true ->
  rsplit c s = [s].
Proof.
  induction s as [|a s IH]; [reflexivity|].
  cbn [forall_chars rsplit]. intros H. apply andb_prop in H as [Ha Hs].
  apply negb_true_iff in Ha. rewrite Ha, (IH Hs). reflexivity.
Qed.

Lemma pop_rsplit_command (name : string) :
  forall_chars (fun a => negb (Ascii.eqb a underscore)) name = true ->
  pop (rsplit underscore ("command_" +:+ name)) = name.
Proof.
  intros H.
  change ("command_" +:+ name)
    with (String "c" (String "o" (String "m" (String "m" (String "a"
           (String "n" (String "d" (String underscore name)))))))).
  cbn [rsplit Ascii.eqb Bool.eqb underscore]. rewrite (rsplit_no_sep _ _ H).
  reflexivity.
Qed.

End CommandNames.

Lemma elem_of_dir (obj : pyobject) (name : string) :
  name ∈ dir obj <-> is_Some (obj !! name).
Proof.
  unfold dir. rewrite merge_sort_Permutation.
  rewrite list_elem_of_fmap. split.
  - intros [[k v] [-> Hkv]]. apply elem_of_map_to_list in Hkv.
    cbn [fst]. eauto.
  - intros [v Hv]. exists (name, v). split; [reflexivity|].
    apply elem_of_map_to_list, Hv.
Qed.

(** X6: no name listed by [commands] contains an underscore, whatever
    the shell defines. *)
Theorem commands_names_have_no_underscore (self : interpreter) :
  Forall (fun name =>
            PyStr.forall_chars
              (fun a => negb (Ascii.eqb a PyStr.underscore)) name = true)
         (commands self).
Proof.
  unfold commands. apply Forall_forall. intros name Hin.
  apply list_elem_of_In, in_map_iff in Hin as [key [<- _]].
  apply pop_rsplit_no_sep.
Qed.

(** X7: a command whose name has no underscore and that the shell
    defines is listed by [commands], is suggested by default, and
    resolves to that attribute. *)
Theorem commands_lists_plain_names (self : interpreter) (name : string)
    (h : pyvalue) :
  PyStr.forall_chars (fun a => negb (Ascii.eqb a PyStr.underscore)) name = true ->
  attrs self !! ("command_" +:+ name) = Some h ->
  name ∈ commands self /\
  (suggested_override self = None -> name ∈ suggested_commands self) /\
  get_command_handler self name = Ok h.
Proof.
  intros Hn Hh.
  assert (Hc : name ∈ commands self).
  { unfold commands. apply list_elem_of_In, in_map_iff.
    exists ("command_" +:+ name). split; [apply pop_rsplit_command, Hn|].
    apply list_elem_of_In, list_elem_of_filter. split.
    - unfold PyStr.startswith. apply prefix_app.
    - apply elem_of_dir. eauto. }
  split; [exact Hc|]. split.
  - intros Ho. unfold suggested_commands. rewrite Ho. exact Hc.
  - apply get_command_handler_builtin, Hh.
Qed.

Lemma commands_lists_plain_names_witness :
  "status" ∈ commands Examples.scan_shell.
Proof.
  apply (proj1 (commands_lists_plain_names Examples.scan_shell "status"
                  (Examples.returns 0) eq_refl eq_refl)).
Defined.

(** ** More on completion *)

(** X8: before any call with index 0 there is no [completion_matches]:
    a call with another index raises [AttributeError], which the
    [except IndexError] does not catch, and leaves the interpreter as it
    was. *)
Theorem complete_without_session (self : interpreter) (rl : readline)
    (text : string) (i : Z) :
  completion_matches self = None ->
  i <> 0 ->
  complete self rl text i = (Raise AttributeError, self).
Proof.
  intros Hm Hi. unfold complete.
  destruct (i =? 0) eqn:E; [apply Z.eqb_eq in E; contradiction|].
  rewrite Hm. reflexivity.
Qed.

Lemma complete_without_session_witness :
  complete Examples.scan_shell (Examples.at_command "s") "s" 1
  = (Raise AttributeError, Examples.scan_shell).
Proof.
  apply complete_without_session; [reflexivity | discriminate].
Defined.

(** X9: a negative index counts from the end of the cached list, as
    list indexing does: from [-len] to [-1] the call returns the entry
    at [len + i] (so [-1] gives the last candidate, not [None]); below
    [-len] it returns [None].  The cache is left as it is. *)
Theorem complete_negative_index (self : interpreter) (rl : readline)
    (text : string) (l : list string) (i : Z) :
  completion_matches self = Some l ->
  i < 0 ->
  complete self rl text i
  = (Ok (if - Z.of_nat (length l) <=? i
         then nth_error l (Z.to_nat (i + Z.of_nat (length l)))
         else None),
     self) /\
  (- Z.of_nat (length l) <= i ->
   nth_error l (Z.to_nat (i + Z.of_nat (length l))) <> None).
Proof.
  intros Hm Hi. split.
  - unfold complete.
    destruct (i =? 0) eqn:E; [apply Z.eqb_eq in E; lia|].
    rewrite Hm. cbn [bind]. unfold py_index.
    apply Z.ltb_lt in Hi. rewrite Hi. apply Z.ltb_lt in Hi.
    destruct (- Z.of_nat (length l) <=? i) eqn:Hlo.
    + apply Z.leb_le in Hlo.
      assert (H0 : (0 <=? i + Z.of_nat (length l)) = true)
        by (apply Z.leb_le; lia).
      assert (H1 : (i + Z.of_nat (length l) <? Z.of_nat (length l)) = true)
        by (apply Z.ltb_lt; lia).
      rewrite H0, H1. cbn [andb].
      destruct (nth_error l (Z.to_nat (i + Z.of_nat (length l)))); reflexivity.
    + apply Z.leb_gt in Hlo.
      assert (H0 : (0 <=? i + Z.of_nat (length l)) = false)
        by (apply Z.leb_gt; lia).
      rewrite H0. reflexivity.
  - intros Hlo. apply nth_error_Some. lia.
Qed.

Lemma complete_negative_index_witness :
  complete (set_completion_matches Examples.scan_shell ["scan"; "status"; "stop"])
           (Examples.at_command "s") "s" (-1)
  = (Ok (Some "stop"),
     set_completion_matches Examples.scan_shell ["scan"; "status"; "stop"]).
Proof.
  refine (proj1 (complete_negative_index
                   (set_completion_matches Examples.scan_shell
                      ["scan"; "status"; "stop"])
                   (Examples.at_command "s") "s" ["scan"; "status"; "stop"]
                   (-1) eq_refl _)).
  reflexivity.
Defined.

Lemma prefix_refl (s : string) : String.prefix s s = true.
Proof.
  induction s as [|a s IH]; [reflexivity|].
  cbn [String.prefix]. destruct (ascii_dec a a); [exact IH | congruence].
Qed.

Lemma filter_all {A} (P : A -> Prop) `{forall x, Decision (P x)} (l : list A) :
  (forall x, P x) -> filter P l = l.
Proof.
  intros HP. induction l as [|x l IH]; [reflexivity|].
  rewrite filter_cons_True by apply HP. rewrite IH. reflexivity.
Qed.

(** X10: [raw_command_completer] on the empty fragment returns every
    suggested command; on any fragment it returns exactly the suggested
    commands that start with it; and a suggested command, typed in
    full, is among its own candidates. *)
Theorem raw_command_completer_candidates (self : interpreter)
    (line : string) (b e : Z) :
  raw_command_completer self "" line b e = suggested_commands self /\
  (forall text name,
     name ∈ raw_command_completer self text line b e <->
     PyStr.startswith name text = true /\ name ∈ suggested_commands self) /\
  (forall name,
     name ∈ suggested_commands self ->
     name ∈ raw_command_completer self name line b e).
Proof.
  unfold raw_command_completer. split; [|split].
  - apply filter_all. intros name. unfold PyStr.startswith.
    destruct name; reflexivity.
  - intros text name. rewrite list_elem_of_filter. reflexivity.
  - intros name Hn. apply list_elem_of_filter. split; [|exact Hn].
    unfold PyStr.startswith. apply prefix_refl.
Qed.

Lemma raw_command_completer_candidates_witness :
  "stop" ∈ raw_command_completer Examples.scan_shell "stop" "stop" 0 4.
Proof.
  apply (proj2 (proj2 (raw_command_completer_candidates
                         Examples.scan_shell "stop" 0 4))).
  apply list_elem_of_In. vm_compute. right. right. left. reflexivity.
Defined.

(** ** More on the main loop *)

Section LoopExits.

Variable utils_puts : utils_call -> nat.
Variable after_call : interpreter -> string -> string -> interpreter.

Local Abbreviation turn := (iteration utils_puts after_call).
Local Abbreviation run_loop := (loop utils_puts after_call).

Lemma iteration_handler_raises (self : interpreter)
    (line command args : string) (h : pyvalue) (e : exn) (q : nat) :
  parse_line line = (command, args) ->
  command <> "" ->
  get_command_handler self command = Ok h ->
  h_raise (call_handler h args) = Some e ->
  turn self (Line line) q
  = ((EvInput (prompt self) q :: EvCall command args
        :: map EvUtils (fst (except_clauses (Raised e))) ++ [EvJoin])%list,
     0%nat, snd (except_clauses (Raised e)), after_call self command args).
Proof.
  intros Hp Hc Hh Hr. unfold iteration, try_body. cbn [input]. rewrite Hp.
  apply String.eqb_neq in Hc. rewrite Hc, Hh, Hr.
  destruct (except_clauses (Raised e)) as [calls s]. reflexivity.
Qed.

Lemma except_clauses_uncaught (e : exn) :
  is_caught e = false -> except_clauses (Raised e) = ([], Raised e).
Proof. destruct e; cbn; intros H; try discriminate H; reflexivity. Qed.

(** What one turn leaves in the trace about the end of the loop: the
    stop notice is there exactly when the turn breaks out, at the end,
    before the drain; an exception that leaves the turn is one that no
    [except] clause catches. *)
Lemma iteration_stop_notice (self : interpreter) (r : read) (q : nat) :
  match signal_of (turn self r q) with
  | Break =>
      exists pre,
        events_of (turn self r q)
        = (pre ++ [EvUtils print_info;
                   EvUtils (print_status "icssploit stopped"); EvJoin])%list /\
        forallb (fun ev => negb (is_stop_notice ev)) pre = true
  | Raised e =>
      is_caught e = false /\
      forallb (fun ev => negb (is_stop_notice ev)) (events_of (turn self r q))
      = true
  | Fallthrough | Continue =>
      forallb (fun ev => negb (is_stop_notice ev)) (events_of (turn self r q))
      = true
  end.
Proof.
  unfold iteration, try_body.
  destruct (input r) as [line|e].
  - destruct (parse_line line) as [command args].
    destruct (String.eqb command ""); [reflexivity|].
    destruct (get_command_handler self command) as [h|e].
    + destruct (h_raise (call_handler h args)) as [e|]; [|reflexivity].
      destruct e; cbn; try (split; reflexivity); try reflexivity.
      exists [EvInput (prompt self) q; EvCall command args].
      split; reflexivity.
    + destruct e; cbn; try (split; reflexivity); try reflexivity.
      exists [EvInput (prompt self) q]. split; reflexivity.
  - destruct e; cbn; try (split; reflexivity); try reflexivity.
    exists [EvInput (prompt self) q]. split; reflexivity.
Qed.

Lemma loop_stop_notice (inputs : list read) (self : interpreter) (q : nat) :
  match snd (run_loop self inputs q) with
  | Terminated =>
      exists pre,
        fst (run_loop self inputs q)
        = (pre ++ [EvUtils print_info;
                   EvUtils (print_status "icssploit stopped"); EvJoin])%list /\
        forallb (fun ev => negb (is_stop_notice ev)) pre = true
  | Propagated e =>
      is_caught e = false /\
      forallb (fun ev => negb (is_stop_notice ev)) (fst (run_loop self inputs q))
      = true
  end.
Proof.
  revert self q. induction inputs as [|r rest IH]; intros self q.
  - cbn. exists [EvInput (prompt self) q]. split; reflexivity.
  - cbn [loop].
    pose proof (iteration_stop_notice self r q) as Hi.
    destruct (turn self r q) as [[[evs q'] s] self'].
    unfold signal_of, events_of in Hi. cbn [fst snd] in Hi.
    destruct s.
    + specialize (IH self' q').
      destruct (loop utils_puts after_call self' rest q') as [evs' x].
      cbn [fst snd] in *. destruct x as [|e].
      * destruct IH as [pre [-> Hpre]]. exists (evs ++ pre)%list.
        split; [apply app_assoc|]. rewrite forallb_app, Hi, Hpre. reflexivity.
      * destruct IH as [He Hn]. split; [exact He|].
        rewrite forallb_app, Hi, Hn. reflexivity.
    + specialize (IH self' q').
      destruct (loop utils_puts after_call self' rest q') as [evs' x].
      cbn [fst snd] in *. destruct x as [|e].
      * destruct IH as [pre [-> Hpre]]. exists (evs ++ pre)%list.
        split; [apply app_assoc|]. rewrite forallb_app, Hi, Hpre. reflexivity.
      * destruct IH as [He Hn]. split; [exact He|].
        rewrite forallb_app, Hi, Hn. reflexivity.
    + exact Hi.
    + exact Hi.
Qed.

Lemma iteration_calls_well_formed (self : interpreter) (r : read) (q : nat) :
  forallb call_well_formed (events_of (turn self r q)) = true.
Proof.
  unfold iteration, try_body.
  destruct (input r) as [line|e].
  - pose proof (parse_line_cmd_no_space line) as Hns.
    pose proof (parse_line_args_stripped line) as Hst.
    destruct (parse_line line) as [command args]. cbn [fst snd] in Hns, Hst.
    destruct (String.eqb command "") eqn:Hc; [reflexivity|].
    destruct (get_command_handler self command) as [h|e].
    + assert (Hw : call_well_formed (EvCall command args) = true).
      { cbn [call_well_formed]. rewrite Hc, Hns, Hst, String.eqb_refl.
        reflexivity. }
      destruct (h_raise (call_handler h args)) as [e|].
      * destruct e; cbn [except_clauses events_of fst map app forallb];
          rewrite Hw; reflexivity.
      * cbn [except_clauses events_of fst map app forallb].
        rewrite Hw. reflexivity.
    + destruct e; reflexivity.
  - destruct e; reflexivity.
Qed.

End LoopExits.

(** X11: an exception that a handler raises and that is none of
    [icssploitException], [EOFError], [KeyboardInterrupt] is not
    recovered: the turn still drains, nothing is printed for it, the
    exception leaves [start]'s loop and what remains of the input is
    not read.  Calling an attribute that is not a handler is such a
    case ([TypeError]). *)
Theorem loop_uncaught_exception_propagates
    (utils_puts : utils_call -> nat)
    (after_call : interpreter -> string -> string -> interpreter)
    (self : interpreter) (rest : list read) (q : nat)
    (line command args : string) (h : pyvalue) (e : exn) :
  parse_line line = (command, args) ->
  command <> "" ->
  get_command_handler self command = Ok h ->
  h_raise (call_handler h args) = Some e ->
  is_caught e = false ->
  loop utils_puts after_call self (Line line :: rest) q
  = ([EvInput (prompt self) q; EvCall command args; EvJoin], Propagated e).
Proof.
  intros Hp Hc Hh Hr He. cbn [loop].
  rewrite (iteration_handler_raises _ _ _ _ _ _ _ _ _ Hp Hc Hh Hr).
  rewrite (except_clauses_uncaught _ He). reflexivity.
Qed.

Lemma loop_uncaught_exception_propagates_witness :
  loop (fun _ => 1%nat) (fun s _ _ => s)
       (Examples.shell (<["command_version" := PyData "1.0"]> ∅) None)
       [Line "version"; Line "version"] 0
  = ([EvInput ">>>" 0; EvCall "version" ""; EvJoin], Propagated TypeError).
Proof.
  refine (loop_uncaught_exception_propagates _ _ _ _ _ "version" "version" ""
            (PyData "1.0") TypeError _ _ _ _ _);
    try reflexivity.
  discriminate.
Defined.

(** X12: the [except] clauses do not ask where the exception comes
    from.  An [EOFError] raised by a handler ends the loop with the stop
    notice as end of input at the prompt does, and a
    [KeyboardInterrupt] raised while a handler runs is swallowed with
    an empty [print_info] and the loop goes on. *)
Theorem loop_handler_eof_and_interrupt
    (utils_puts : utils_call -> nat)
    (after_call : interpreter -> string -> string -> interpreter)
    (self : interpreter) (rest : list read) (q : nat)
    (line command args : string) (h : pyvalue) :
  parse_line line = (command, args) ->
  command <> "" ->
  get_command_handler self command = Ok h ->
  (h_raise (call_handler h args) = Some EOFError ->
   loop utils_puts after_call self (Line line :: rest) q
   = ([EvInput (prompt self) q; EvCall command args; EvUtils print_info;
       EvUtils (print_status "icssploit stopped"); EvJoin], Terminated)) /\
  (h_raise (call_handler h args) = Some KeyboardInterrupt ->
   loop utils_puts after_call self (Line line :: rest) q
   = followed_by
       [EvInput (prompt self) q; EvCall command args; EvUtils print_info;
        EvJoin]
       (loop utils_puts after_call (after_call self command args) rest 0)).
Proof.
  intros Hp Hc Hh. split; intros Hr.
  - cbn [loop].
    rewrite (iteration_handler_raises _ _ _ _ _ _ _ _ _ Hp Hc Hh Hr).
    reflexivity.
  - eapply loop_goes_on; [|left; reflexivity].
    rewrite (iteration_handler_raises _ _ _ _ _ _ _ _ _ Hp Hc Hh Hr).
    reflexivity.
Qed.

Lemma loop_handler_eof_and_interrupt_witness :
  loop (fun _ => 1%nat) (fun s _ _ => s)
       (Examples.shell
          (<["command_quit" :=
               PyMethod (fun _ => {| h_puts := 0; h_raise := Some EOFError |})]> ∅)
          None)
       [Line "quit now"; Line "quit"] 0
  = ([EvInput ">>>" 0; EvCall "quit" "now"; EvUtils print_info;
      EvUtils (print_status "icssploit stopped"); EvJoin], Terminated).
Proof.
  refine (proj1 (loop_handler_eof_and_interrupt _ _ _ _ _ "quit now" "quit" "now"
                   (PyMethod (fun _ => {| h_puts := 0;
                                           h_raise := Some EOFError |}))
                   _ _ _) _);
    try reflexivity.
  discriminate.
Defined.

(** X13: whatever is typed, every handler call of a run of [start] is
    made for a command that is not empty and has no space in it, with an
    argument that has no whitespace at either end. *)
Theorem start_calls_well_formed
    (utils_puts : utils_call -> nat)
    (after_call : interpreter -> string -> string -> interpreter)
    (self : interpreter) (inputs : list read) (q0 : nat) :
  forallb call_well_formed (fst (start utils_puts after_call self inputs q0))
  = true.
Proof.
  unfold start.
  assert (H : forall inputs self q,
             forallb call_well_formed
               (fst (loop utils_puts after_call self inputs q)) = true).
  { clear. intros inputs. induction inputs as [|r rest IH]; intros self q.
    - reflexivity.
    - cbn [loop].
      pose proof (iteration_calls_well_formed utils_puts after_call self r q) as Hi.
      destruct (iteration utils_puts after_call self r q) as [[[evs q'] s] self'].
      unfold events_of in Hi. cbn [fst] in Hi.
      destruct s; try exact Hi.
      all: specialize (IH self' q');
        destruct (loop utils_puts after_call self' rest q') as [evs' x];
        cbn [fst] in *; rewrite forallb_app, Hi, IH; reflexivity. }
  specialize (H inputs self (join q0)).
  destruct (loop utils_puts after_call self inputs (join q0)) as [evs x].
  cbn [fst] in *. exact H.
Qed.

(** X14: a run of [start] ends in one of two ways.  Either the loop
    breaks out, and then the stop notice [icssploit stopped] is printed
    once, after an empty [print_info] and before the last drain; or an
    exception leaves it, one that no [except] clause catches, and then
    the stop notice is never printed. *)
Theorem start_stop_notice
    (utils_puts : utils_call -> nat)
    (after_call : interpreter -> string -> string -> interpreter)
    (self : interpreter) (inputs : list read) (q0 : nat) :
  match snd (start utils_puts after_call self inputs q0) with
  | Terminated =>
      exists pre,
        fst (start utils_puts after_call self inputs q0)
        = (pre ++ [EvUtils print_info;
                   EvUtils (print_status "icssploit stopped"); EvJoin])%list /\
        forallb (fun ev => negb (is_stop_notice ev)) pre = true
  | Propagated e =>
      is_caught e = false /\
      forallb (fun ev => negb (is_stop_notice ev))
              (fst (start utils_puts after_call self inputs q0)) = true
  end.
Proof.
  unfold start.
  pose proof (loop_stop_notice utils_puts after_call inputs self (join q0)) as H.
  destruct (loop utils_puts after_call self inputs (join q0)) as [evs x].
  cbn [fst snd] in *. destruct x as [|e].
  - destruct H as [pre [-> Hpre]].
    exists (EvPrintBanner (banner self) :: EvJoin :: pre). split; [reflexivity|].
    cbn [forallb is_stop_notice negb andb]. exact Hpre.
  - destruct H as [He Hn]. split; [exact He|].
    cbn [forallb is_stop_notice negb andb]. exact Hn.
Qed.

(** ** More on the printer worker *)

Section PrinterMore.

Import Printer.

Lemma str_app_assoc (x y z : string) : (x +:+ y) +:+ z = x +:+ (y +:+ z).
Proof.
  induction x as [|a x IH]; [reflexivity|].
  change (String a x +:+ y) with (String a (x +:+ y)).
  change (String a (x +:+ y) +:+ z) with (String a ((x +:+ y) +:+ z)).
  rewrite IH. reflexivity.
Qed.

Lemma str_app_empty_r (x : string) : x +:+ "" = x.
Proof.
  induction x as [|a x IH]; [reflexivity|].
  change (String a x +:+ "") with (String a (x +:+ "")). rewrite IH. reflexivity.
Qed.

Lemma print_inv (fs fs' : gmap nat stream) (r : request) :
  print fs r = Ok fs' ->
  exists st, fs !! file_ r = Some st /\ closed st = false /\
             fs' = <[file_ r := {| closed := false;
                                   written := written st +:+ rendered r |}]> fs.
Proof.
  unfold print. destruct (fs !! file_ r) as [st|] eqn:Hf; [|discriminate].
  destruct (closed st) eqn:Hc; [discriminate|].
  intros E. injection E as <-. exists st.
  split; [reflexivity|]. split; [exact Hc | reflexivity].
Qed.

(** A write touches the text of its own stream and nothing else. *)
Lemma print_stream (fs fs' : gmap nat stream) (r : request) (f : nat) :
  print fs r = Ok fs' ->
  closed <$> (fs' !! f) = closed <$> (fs !! f) /\
  written <$> (fs' !! f)
  = (fun w => w +:+ (if Nat.eqb (file_ r) f then rendered r else ""))
      <$> (written <$> (fs !! f)).
Proof.
  intros Hp. destruct (print_inv _ _ _ Hp) as [st [Hf [Hc ->]]].
  destruct (Nat.eqb (file_ r) f) eqn:E.
  - apply Nat.eqb_eq in E. subst f. rewrite lookup_insert_eq, Hf. cbn.
    rewrite Hc. split; reflexivity.
  - apply Nat.eqb_neq in E. rewrite lookup_insert_ne by exact E.
    split; [reflexivity|].
    destruct (fs !! f) as [st'|]; cbn; [|reflexivity].
    rewrite str_app_empty_r. reflexivity.
Qed.

Lemma write_all_stream (its : list request) :
  forall (fs : gmap nat stream) (f : nat),
    closed <$> (write_all fs its !! f) = closed <$> (fs !! f) /\
    written <$> (write_all fs its !! f)
    = (fun w => w +:+ rendered_for f (writable_prefix fs its))
        <$> (written <$> (fs !! f)).
Proof.
  induction its as [|r rest IH]; intros fs f.
  - cbn [write_all writable_prefix rendered_for]. split; [reflexivity|].
    destruct (fs !! f) as [st|]; cbn; [|reflexivity].
    rewrite str_app_empty_r. reflexivity.
  - cbn [write_all writable_prefix].
    destruct (print fs r) as [fs'|e] eqn:Hp.
    + destruct (IH fs' f) as [Hc Hw].
      destruct (print_stream _ _ _ f Hp) as [Hc' Hw'].
      split; [rewrite Hc; exact Hc'|].
      rewrite Hw, Hw'. cbn [rendered_for].
      destruct (fs !! f) as [st|]; cbn; [|reflexivity].
      destruct (Nat.eqb (file_ r) f).
      * rewrite str_app_assoc. reflexivity.
      * rewrite str_app_empty_r. reflexivity.
    + cbn [rendered_for]. split; [reflexivity|].
      destruct (fs !! f) as [st|]; cbn; [|reflexivity].
      rewrite str_app_empty_r. reflexivity.
Qed.

(** The streams after [run_items] are those after the writable prefix,
    also when a [task_done] too many ends the worker. *)
Lemma run_items_closed (its : list request) :
  forall (n : nat) (fs : gmap nat stream) (f : nat),
    closed <$> (files (run_items its n fs) !! f) = closed <$> (fs !! f).
Proof.
  induction its as [|r rest IH]; intros n fs f; cbn [run_items].
  - reflexivity.
  - destruct (print fs r) as [fs'|e] eqn:Hp; [|reflexivity].
    destruct (print_stream _ _ _ f Hp) as [Hc _].
    destruct (task_done n) as [n'|e]; cbn [files].
    + rewrite IH. exact Hc.
    + exact Hc.
Qed.

Lemma run_items_waiting (its : list request) :
  forall (n : nat) (fs : gmap nat stream),
    worker (run_items its n fs) = Waiting ->
    items (queue (run_items its n fs)) = [].
Proof.
  induction its as [|r rest IH]; intros n fs; cbn [run_items].
  - reflexivity.
  - destruct (print fs r) as [fs'|e]; [|discriminate].
    destruct (task_done n) as [n'|e]; [apply IH | discriminate].
Qed.

(** Taking up a queue in two goes. *)
Lemma run_items_app (its1 its2 : list request) (k : nat) :
  forall (n : nat) (fs : gmap nat stream),
    (length its1 <= n)%nat ->
    run_items (its1 ++ its2) (n + k) fs
    = match worker (run_items its1 n fs) with
      | Waiting =>
          run_items its2
            (unfinished_tasks (queue (run_items its1 n fs)) + k)
            (files (run_items its1 n fs))
      | Dead e =>
          {| queue :=
               {| items := (items (queue (run_items its1 n fs)) ++ its2)%list;
                  unfinished_tasks :=
                    (unfinished_tasks (queue (run_items its1 n fs)) + k)%nat |};
             files := files (run_items its1 n fs);
             worker := Dead e |}
      end.
Proof.
  induction its1 as [|r rest IH]; intros n fs Hn.
  - reflexivity.
  - cbn [app run_items]. destruct (print fs r) as [fs'|e]; [|reflexivity].
    destruct n as [|n']; [cbn in Hn; lia|].
    cbn [Nat.add task_done]. apply IH. cbn [length] in Hn. lia.
Qed.



End PrinterMore.

Lemma targets_open_ext (fs fs' : gmap nat Printer.stream)
    (rs : list Printer.request) :
  (forall f, Printer.closed <$> (fs' !! f) = Printer.closed <$> (fs !! f)) ->
  targets_open fs' rs = targets_open fs rs.
Proof.
  intros H. unfold targets_open. induction rs as [|r rs IH]; [reflexivity|].
  cbn [forallb]. rewrite IH. f_equal.
  specialize (H (Printer.file_ r)).
  destruct (fs' !! Printer.file_ r) as [st'|], (fs !! Printer.file_ r) as [st|];
    cbn in H; try discriminate H; [|reflexivity].
  injection H as ->. reflexivity.
Qed.

(** X15: what the worker leaves in a stream.  On a queue in which every
    waiting item was counted, a stream holds, after [run], what it held
    before followed by the text of the requests addressed to it among
    those the worker got through, in queue order; nothing is written for
    the request that failed or for those behind it. *)
Theorem worker_output_in_queue_order
    (its : list Printer.request) (n : nat) (fs : gmap nat Printer.stream)
    (f : nat) :
  (length its <= n)%nat ->
  Printer.output (Printer.run (Printer.waiting_on its n fs)) f
  = (fun w => w +:+ rendered_for f (Printer.writable_prefix fs its))
      <$> (Printer.written <$> (fs !! f)).
Proof.
  intros Hn. unfold Printer.output, Printer.run, Printer.waiting_on.
  cbn [Printer.worker Printer.queue Printer.items Printer.unfinished_tasks
       Printer.files].
  destruct (run_items_spec its n fs Hn) as [Hf _]. rewrite Hf.
  apply write_all_stream.
Qed.

Lemma worker_output_in_queue_order_witness :
  Printer.output (Printer.run Printer.broken_state) 2 = Some "" /\
  Printer.output (Printer.run Printer.healthy_state) 2
  = Some "hello world!hello world!".
Proof.
  split.
  - refine (worker_output_in_queue_order
              [Printer.to_closed; Printer.to_open] 2 Printer.two_streams 2 _).
    cbn. lia.
  - refine (worker_output_in_queue_order
              [Printer.to_open; Printer.to_open] 2 Printer.two_streams 2 _).
    cbn. lia.
Defined.

(** X16: the worker never opens, closes, adds or removes a stream:
    after [run], from any state, the same streams exist and each is
    closed or open as before. *)
Theorem worker_keeps_streams (s : Printer.state) (f : nat) :
  Printer.closed <$> (Printer.files (Printer.run s) !! f)
  = Printer.closed <$> (Printer.files s !! f) /\
  (is_Some (Printer.files (Printer.run s) !! f)
   <-> is_Some (Printer.files s !! f)).
Proof.
  assert (H : Printer.closed <$> (Printer.files (Printer.run s) !! f)
              = Printer.closed <$> (Printer.files s !! f)).
  { unfold Printer.run. destruct (Printer.worker s); [|reflexivity].
    apply run_items_closed. }
  split; [exact H|].
  rewrite <- !(fmap_is_Some Printer.closed), H. reflexivity.
Qed.

(** X17: on a queue in which every waiting item was counted, it makes
    no difference whether a producer enqueues before or after the
    worker has taken up what was waiting: the state reached is the
    same. *)
Theorem run_enqueue_commute (s : Printer.state) (r : Printer.request) :
  well_counted s ->
  Printer.run (Printer.enqueue r (Printer.run s))
  = Printer.run (Printer.enqueue r s).
Proof.
  destruct s as [[its n] fs w]. unfold well_counted.
  cbn [Printer.queue Printer.items Printer.unfinished_tasks]. intros Hn.
  destruct w as [|e]; [|reflexivity].
  unfold Printer.run at 2 3.
  cbn [Printer.enqueue Printer.worker Printer.queue Printer.put Printer.items
       Printer.unfinished_tasks Printer.files].
  replace (S n) with (n + 1)%nat by lia.
  rewrite (run_items_app its [r] 1 n fs Hn).
  pose proof (run_items_waiting its n fs) as Hi.
  destruct (Printer.run_items its n fs) as [[its' n'] fs' w'].
  cbn [Printer.worker Printer.queue Printer.items Printer.unfinished_tasks
       Printer.files] in *.
  rewrite !Nat.add_1_r.
  destruct w' as [|e].
  - rewrite (Hi eq_refl). reflexivity.
  - reflexivity.
Qed.

Lemma run_enqueue_commute_witness :
  Printer.run (Printer.enqueue Printer.to_open
                 (Printer.run Printer.healthy_state))
  = Printer.run (Printer.enqueue Printer.to_open Printer.healthy_state).
Proof.
  apply run_enqueue_commute. unfold well_counted. cbn. lia.
Defined.



(** X19: while the streams addressed are open, nothing is lost.  From
    an idle worker (waiting, queue empty, nothing unfinished), after any
    sequence of requests for existing open streams, each enqueued and
    taken up, the worker is idle again, so a [join] returns, and every
    stream holds what it held followed by the text of its requests in
    the order they were enqueued. *)
Theorem idle_worker_writes_everything (rs : list Printer.request) :
  forall s : Printer.state,
    idle s ->
    targets_open (Printer.files s) rs = true ->
    idle (enqueue_and_run rs s) /\
    forall f,
      Printer.output (enqueue_and_run rs s) f
      = (fun w => w +:+ rendered_for f rs) <$> Printer.output s f.
Proof.
  induction rs as [|r rest IH]; intros s Hidle Hopen.
  - cbn [enqueue_and_run rendered_for]. split; [exact Hidle|].
    intros f. unfold Printer.output.
    destruct (Printer.files s !! f) as [st|]; cbn; [|reflexivity].
    rewrite str_app_empty_r. reflexivity.
  - destruct s as [[its n] fs w]. destruct Hidle as [Hw [Hi Hu]].
    cbn [Printer.worker Printer.queue Printer.items Printer.unfinished_tasks
         Printer.files] in *. subst w its n.
    cbn [targets_open forallb] in Hopen. apply andb_prop in Hopen as [Hr Hrest].
    destruct (fs !! Printer.file_ r) as [st|] eqn:Hf; [|discriminate Hr].
    apply negb_true_iff in Hr.
    assert (Hp : Printer.print fs r
                 = Ok (<[Printer.file_ r :=
                          {| Printer.closed := false;
                             Printer.written := Printer.written st +:+ rendered r |}]>
                         fs)).
    { unfold Printer.print. rewrite Hf, Hr. reflexivity. }
    pose (s1 := {| Printer.queue := {| Printer.items := [];
                                       Printer.unfinished_tasks := 0 |};
                   Printer.files :=
                     <[Printer.file_ r :=
                         {| Printer.closed := false;
                            Printer.written := Printer.written st +:+ rendered r |}]>
                       fs;
                   Printer.worker := Printer.Waiting |}).
    assert (Hrun : Printer.run
                     (Printer.enqueue r
                        {| Printer.queue := {| Printer.items := [];
                                               Printer.unfinished_tasks := 0 |};
                           Printer.files := fs;
                           Printer.worker := Printer.Waiting |}) = s1).
    { unfold Printer.run, Printer.enqueue, Printer.put.
      cbn [Printer.worker Printer.queue Printer.items Printer.unfinished_tasks
           Printer.files app Printer.run_items].
      rewrite Hp. reflexivity. }
    cbn [enqueue_and_run]. rewrite Hrun.
    assert (Hidle1 : idle s1) by (repeat split).
    assert (Hopen1 : targets_open (Printer.files s1) rest = true).
    { rewrite <- Hrest. apply targets_open_ext. intros f.
      apply (print_stream _ _ _ f Hp). }
    destruct (IH s1 Hidle1 Hopen1) as [Hidle2 Hout]. split; [exact Hidle2|].
    intros f. rewrite Hout. unfold Printer.output. unfold s1.
    cbn [Printer.files].
    destruct (print_stream _ _ _ f Hp) as [_ Hw]. rewrite Hw.
    cbn [rendered_for].
    destruct (fs !! f) as [st'|]; cbn; [|reflexivity].
    destruct (Nat.eqb (Printer.file_ r) f).
    + rewrite str_app_assoc. reflexivity.
    + rewrite str_app_empty_r. reflexivity.
Qed.

Lemma idle_worker_writes_everything_witness :
  Printer.output
    (enqueue_and_run [Printer.to_open; Printer.to_open]
       (Printer.waiting_on [] 0 Printer.two_streams)) 2
  = Some "hello world!hello world!".
Proof.
  refine (proj2 (idle_worker_writes_everything
                   [Printer.to_open; Printer.to_open]
                   (Printer.waiting_on [] 0 Printer.two_streams) _ _) 2%nat).
  - repeat split.
  - reflexivity.
Defined.

(** ** The readline module and setup *)

(** X20: the import cascade binds [readline] to the first installed
    module among those tried on the platform, in order ([gnureadline]
    alone on darwin; [readline], [pyreadline3], [pyreadline] on win32;
    [readline] elsewhere), and to [None] when none is installed; no
    [ImportError] leaves it.  On darwin a plain [readline] is not
    used. *)
Theorem select_readline_first_installed (platform : string)
    (available : string -> bool) :
  select_readline platform available
  = Ok (List.find available (readline_candidates platform)) /\
  (forall m, select_readline platform available = Ok (Some m) ->
             available m = true /\ In m (readline_candidates platform)) /\
  (available "gnureadline" = false ->
   select_readline "darwin" available = Ok None).
Proof.
  assert (H : select_readline platform available
              = Ok (List.find available (readline_candidates platform))).
  { unfold select_readline, readline_candidates, import_module.
    destruct (String.eqb platform "darwin").
    - cbn [List.find]. destruct (available "gnureadline"); reflexivity.
    - destruct (String.eqb platform "win32"); cbn [List.find].
      + destruct (available "readline"); [reflexivity|].
        destruct (available "pyreadline3"); [reflexivity|].
        destruct (available "pyreadline"); reflexivity.
      + destruct (available "readline"); reflexivity. }
  split; [exact H|]. split.
  - intros m Hm. rewrite H in Hm. injection Hm as Hm.
    apply find_some in Hm. destruct Hm as [Hin Ha]. split; assumption.
  - intros Hg. unfold select_readline, import_module. cbn. rewrite Hg.
    reflexivity.
Qed.

Lemma select_readline_first_installed_witness :
  select_readline "darwin" (fun m => String.eqb m "readline") = Ok None.
Proof.
  apply (proj2 (proj2 (select_readline_first_installed "darwin"
                         (fun m => String.eqb m "readline")))).
  reflexivity.
Defined.


